(** * bhs_api.fsearch: the family-tree search compiler, executor and sanitizer

    A shallow embedding of [src/bhs_api/fsearch.py] (Python 2) and the
    properties its specification states about it.

    Conventions of the embedding:
    - a Python [dict] that the code iterates over ([search_dict],
      [names_and_places], [years], [kwargs]) is the list of its items in
      iteration order, updated by [dict_set] (replace in place, else append);
      a well-formed dict has no duplicate key ([NoDup (keys d)]). Python 2
      iterates a dict in an order of its own; [names_and_places] and
      [years] have no key in common, so whatever orders a run uses for them
      are those of some list of the items of [search_dict], and a statement
      about every such list is about every run;
    - a Python [dict] that is only indexed ([search_query], a person record)
      is a [gmap string pyval];
    - a raised exception is the [Raise] branch of [result]. *)

From stdpp Require Import gmap strings list fin_maps.
From Stdlib Require Import ZArith Ascii.

#[local] Set Warnings "-register-all,-clear-no-such-hyp".
#[local] Open Scope Z_scope.

(** ** Python values *)

Inductive pyval :=
| VNone
| VBool (b : bool)
| VInt (n : Z)
| VStr (s : string)
| VRegex (pattern : string)              (* re.compile(pattern) *)
| VList (items : list pyval)             (* a list or a tuple *)
| VDict (items : list (string * pyval)). (* a dict literal *)

(** Truth value of a Python object, as [if x:] and [not x] test it. *)
Definition truthy (v : pyval) : bool :=
  match v with
  | VNone => false
  | VBool b => b
  | VInt n => negb (n =? 0)
  | VStr s => negb (String.eqb s "")
  | VRegex _ => true
  | VList l => match l with [] => false | _ => true end
  | VDict d => match d with [] => false | _ => true end
  end.

(** ** Exceptions and the error monad *)

Inductive exn :=
| KeyError (key : string)
| IndexError
| TypeError
| ValueError (msg : string)
| ReError (pattern : string)               (* re.error *)
| HTTPException (code : Z) (description : string). (* flask.abort(code, description) *)

Inductive result (A : Type) :=
| Ok (a : A)
| Raise (e : exn).
Arguments Ok {A} a.
Arguments Raise {A} e.

#[global] Instance result_ret : MRet result := @Ok.
#[global] Instance result_bind : MBind result := λ A B k r,
  match r with
  | Ok a => k a
  | Raise e => Raise e
  end.

(** Whether a computation returned, and what it returned. *)
Definition is_Ok {A} (r : result A) : bool :=
  match r with
  | Ok _ => true
  | Raise _ => false
  end.

Definition from_Ok {A} (default : A) (r : result A) : A :=
  match r with
  | Ok a => a
  | Raise _ => default
  end.

Definition abort {A} (code : Z) (description : string) : result A :=
  Raise (HTTPException code description).

(** [for x in l: f(x)], stopping at the first exception. *)
Fixpoint for_each {A B} (f : A → result B) (l : list A) : result (list B) :=
  match l with
  | [] => Ok []
  | x :: l' => y ← f x; ys ← for_each f l'; Ok (y :: ys)
  end.

(** ** Strings ([str] methods, on byte strings) *)

Module Str.

Definition lower_char (c : ascii) : ascii :=
  let n := N_of_ascii c in
  if ((65 <=? n) && (n <=? 90))%N then ascii_of_N (n + 32) else c.

Definition upper_char (c : ascii) : ascii :=
  let n := N_of_ascii c in
  if ((97 <=? n) && (n <=? 122))%N then ascii_of_N (n - 32) else c.

Fixpoint map (f : ascii → ascii) (s : string) : string :=
  match s with
  | "" => ""
  | String c s' => String (f c) (map f s')
  end.

(** [s.lower()], [s.upper()] *)
Definition lower : string → string := map lower_char.
Definition upper : string → string := map upper_char.

(** [s.endswith(p)] *)
Definition endswith (p s : string) : bool :=
  String.prefix (String.rev p) (String.rev s).

(** [sub in s] *)
Fixpoint contains (sub s : string) : bool :=
  String.prefix sub s ||
  match s with
  | "" => false
  | String _ s' => contains sub s'
  end.

(** [s.split(sep)] for a non-empty [sep]: [cur] is the piece being read,
    reversed, and [skip] counts the characters of a separator still to be
    stepped over. *)
Fixpoint split_go (sep : string) (skip : nat) (cur : string) (s : string)
  : list string :=
  match s with
  | "" => [String.rev cur]
  | String c s' =>
      match skip with
      | S n => split_go sep n cur s'
      | O =>
          if String.prefix sep s
          then String.rev cur :: split_go sep (String.length sep - 1) "" s'
          else split_go sep 0 (String c cur) s'
      end
  end.
Definition split (sep s : string) : list string := split_go sep 0 "" s.

(** [s.strip()] *)
Fixpoint lstrip (s : string) : string :=
  match s with
  | String c s' => if Ascii.is_space c then lstrip s' else s
  | "" => ""
  end.
Definition strip (s : string) : string :=
  String.rev (lstrip (String.rev (lstrip s))).

End Str.

(** ** [int(s)] on a string

    Optional surrounding whitespace, an optional sign, then one or more
    decimal digits; anything else raises [ValueError]. *)

Fixpoint digits_go (acc : Z) (s : string) : option Z :=
  match s with
  | "" => Some acc
  | String c s' =>
      match Ascii.is_nat c with
      | Some d => digits_go (10 * acc + Z.of_nat d) s'
      | None => None
      end
  end.

Definition digits (s : string) : option Z :=
  match s with
  | "" => None
  | _ => digits_go 0 s
  end.

Definition parse_int (s : string) : option Z :=
  match Str.strip s with
  | String "+"%char r => digits r
  | String "-"%char r => Z.opp <$> digits r
  | t => digits t
  end.

Definition int_of_str (s : string) : result Z :=
  match parse_int s with
  | Some n => Ok n
  | None => Raise (ValueError ("invalid literal for int() with base 10: " +:+ s))
  end.

(** [int(v)] on a Python value. *)
Definition py_int (v : pyval) : result Z :=
  match v with
  | VInt n => Ok n
  | VBool b => Ok (if b then 1 else 0)
  | VStr s => int_of_str s
  | _ => Raise TypeError
  end.

(** ** Dicts that are iterated: items in iteration order *)

Definition keys {V} (d : list (string * V)) : list string := d.*1.

(** [d.get(k)] / [k in d] *)
Fixpoint dict_get {V} (d : list (string * V)) (k : string) : option V :=
  match d with
  | [] => None
  | (k', v) :: d' => if decide (k' = k) then Some v else dict_get d' k
  end.

(** [d[k] = v] *)
Fixpoint dict_set {V} (d : list (string * V)) (k : string) (v : V)
  : list (string * V) :=
  match d with
  | [] => [(k, v)]
  | (k', v') :: d' =>
      if decide (k' = k) then (k, v) :: d' else (k', v') :: dict_set d' k v
  end.

(** ** Module constants *)

Definition MAX_RESULTS : Z := 30.
Definition MAX_COUNT_RESULTS : Z := -1.

Definition ARGS_TO_INDEX : list (string * string) :=
  [ ("first_name",     "name_lc.0");
    ("last_name",      "name_lc.1");
    ("sex",            "sex");
    ("birth_place",    "BIRT_PLAC_lc");
    ("marriage_place", "MARR_PLAC_lc");
    ("tree_number",    "tree_num");
    ("death_place",    "DEAT_PLAC_lc");
    ("place",          "filler_lc") ].

(** [d[k]], raising [KeyError] *)
Definition dict_index {V} (d : list (string * V)) (k : string) : result V :=
  match dict_get d k with
  | Some v => Ok v
  | None => Raise (KeyError k)
  end.

(** [l[i]], raising [IndexError] *)
Definition list_index {A} (l : list A) (i : nat) : result A :=
  match l !! i with
  | Some x => Ok x
  | None => Raise IndexError
  end.

(** ** The query compiler *)

(** The dict [{'min': minimum, 'max': maximum}]. *)
Record year_range := YearRange { range_min : Z; range_max : Z }.

(** [_generate_year_range(year, fudge_factor=0)]: [int(str(n))] is [n]. *)
Definition _generate_year_range (year fudge_factor : Z) : year_range :=
  let maximum := year + fudge_factor in
  let minimum := year - fudge_factor in
  {| range_min := minimum; range_max := maximum |}.

(** The locals of [build_query] that the first loop fills. *)
Record buckets := Buckets {
  names_and_places : list (string * string);
  years : list (string * string);
  sex : option string;
  individual_id : option string;
  only_deceased : bool
}.

Definition no_buckets : buckets := Buckets [] [] None None false.

(** One turn of [for k, v in search_dict.items()] (lines 50-62). *)
Definition classify (b : buckets) (kv : string * string) : buckets :=
  let '(k, v) := kv in
  let b :=
    if Str.endswith "place" k || Str.contains "_year" k
    then Buckets (names_and_places b) (years b) (sex b) (individual_id b) true
    else b in
  if Str.endswith "name" k || Str.endswith "place" k then
    Buckets (dict_set (names_and_places b) k (Str.lower v))
            (years b) (sex b) (individual_id b) (only_deceased b)
  else if Str.contains "_year" k then
    Buckets (names_and_places b) (dict_set (years b) k v)
            (sex b) (individual_id b) (only_deceased b)
  else if decide (k = "sex") then
    if bool_decide (Str.lower v ∈ ["m"; "f"])
    then Buckets (names_and_places b) (years b) (Some (Str.upper v))
                 (individual_id b) (only_deceased b)
    else b
  else if decide (k = "individual_id") then
    Buckets (names_and_places b) (years b) (sex b) (Some v) (only_deceased b)
  else b.

Definition classify_all (search_dict : list (string * string)) : buckets :=
  foldl classify no_buckets search_dict.

(** A pymongo cursor: the documents the query matches, in the collection's
    order, and the [skip] and [limit] set on it. *)
Record cursor := Cursor {
  matched : list (gmap string pyval);
  cursor_skip : nat;
  cursor_limit : Z
}.

(** [collection.find(filter, projection)]: the matched documents; the second
    argument is [None] when [find] is called without a projection. *)
Record collection := Collection {
  find_docs : gmap string pyval → option (list (string * Z))
              → list (gmap string pyval)
}.

Definition find (c : collection) (filter : gmap string pyval)
    (projection : option (list (string * Z))) : cursor :=
  Cursor (find_docs c filter projection) 0 0.

(** [cursor.skip(n)] *)
Definition skip (c : cursor) (n : Z) : result cursor :=
  if n <? 0 then Raise (ValueError "skip must be >= 0")
  else Ok (Cursor (matched c) (Z.to_nat n) (cursor_limit c)).

(** [cursor.limit(n)]: 0 is no limit, and a negative [n] limits to [-n]. *)
Definition limit (c : cursor) (n : Z) : cursor :=
  Cursor (matched c) (cursor_skip c) n.

(** The documents a cursor yields when it is iterated. *)
Definition fetch (c : cursor) : list (gmap string pyval) :=
  let docs := drop (cursor_skip c) (matched c) in
  if cursor_limit c =? 0 then docs else take (Z.abs_nat (cursor_limit c)) docs.

(** [cursor.count(with_limit_and_skip)] *)
Definition count (c : cursor) (with_limit_and_skip : bool) : nat :=
  if with_limit_and_skip then length (fetch c) else length (matched c).

(** ** Stand-ins for the modules outside this file *)

(** Modelled from the spec: [bhs_api.persons.is_living_person], whose module
    is not among the sources: "is_living = !deceased AND NOT(birth_year
    present AND (current_year - birth_year) > LIVING_AGE_THRESHOLD)". *)
Definition is_living_person_spec (current_year LIVING_AGE_THRESHOLD : Z)
    (deceased birth_year : pyval) : bool :=
  negb (truthy deceased) &&
  negb match birth_year with
       | VInt y => LIVING_AGE_THRESHOLD <? current_year - y
       | _ => false
       end.

(** Modelled from the spec: [bhs_api.persons.LIVING_PERSON_WHITELISTED_KEYS],
    whose module is not among the sources: "a fixed small whitelist (name,
    tree position identifiers, sex)". *)
Definition whitelist_spec : list string :=
  ["name"; "parents"; "partners"; "siblings"; "tree_num"; "id"; "sex";
   "tree_version"].

(** Test doubles, to run the model on concrete inputs: a phonetic encoder, a
    [re.compile] that accepts every pattern, and a collection that returns
    the same documents whatever the filter. *)
Definition soundex_double (s : string) : string := "S:" +:+ s.
Definition any_pattern (pattern : string) : bool := true.
Definition collection_double (docs : list (gmap string pyval)) : collection :=
  Collection (λ _ _, docs).
Definition database_double (docs : list (gmap string pyval))
  : string → collection := λ _, collection_double docs.

Section Fsearch.

#[local] Set Default Proof Using "Type".

(** [phonetic.get_bhp_soundex], from a module outside this file. *)
Variable get_bhp_soundex : string → string.
(** Whether [re.compile] accepts a pattern ([re.error] otherwise). *)
Variable re_wellformed : string → bool.

Definition re_compile (pattern : string) : result pyval :=
  if re_wellformed pattern then Ok (VRegex pattern)
  else Raise (ReError pattern).

(** One turn of [for search_arg in names_and_places] (lines 65-91): the
    single-entry dict [qf] as its (field, value) pair. *)
Definition resolve_name (search_arg value : string) : result (string * pyval) :=
  field_name ← dict_index ARGS_TO_INDEX search_arg;
  let split_arg := Str.split ";" value in
  search_str ← list_index split_arg 0;
  if decide (search_arg = "first_name") then
    Ok (field_name, VStr search_str)
  else if (1 <? length split_arg)%nat then
    modifier ← list_index split_arg 1;
    if decide (modifier = "prefix") then
      q ← re_compile ("^" +:+ search_str);
      Ok (field_name, q)
    else if decide (modifier = "phonetic") then
      let q := get_bhp_soundex search_str in
      case_sensitive_fn ← list_index (Str.split "_lc" field_name) 0;
      Ok (case_sensitive_fn +:+ "S", VStr q)
    else
      Ok (field_name, VStr search_str)
  else
    Ok (field_name, VStr search_str).

Definition resolve_names (nps : list (string * string))
  : result (list (string * (string * pyval))) :=
  for_each (λ '(search_arg, value),
              qf ← resolve_name search_arg value; Ok (search_arg, qf)) nps.

(** One turn of [for search_arg in years] (lines 94-111). *)
Definition resolve_year (value : string) : result year_range :=
  if Str.contains ":" value then
    let split_arg := Str.split ":" value in
    match (y ← list_index split_arg 0; year ← int_of_str y;
           f ← list_index split_arg 1; fudge_factor ← int_of_str f;
           Ok (year, fudge_factor)) with
    | Ok (year, fudge_factor) => Ok (_generate_year_range year fudge_factor)
    | Raise (ValueError _) => abort 400 "Year and fudge factor must be integers"
    | Raise e => Raise e
    end
  else
    match int_of_str value with
    | Ok year => Ok (_generate_year_range year 0)
    | Raise (ValueError _) => abort 400 "Year must be an integer"
    | Raise e => Raise e
    end.

Definition resolve_years (ys : list (string * string))
  : result (list (string * year_range)) :=
  for_each (λ '(search_arg, value),
              r ← resolve_year value; Ok (search_arg, r)) ys.

(** One turn of [for item in years] (lines 116-126). *)
Definition add_year (search_query : gmap string pyval)
    (entry : string * year_range) : gmap string pyval :=
  let '(item, range) := entry in
  if bool_decide (item ∈ ["marriage_year"; "birth_year"; "death_year"]) then
    let search_query_item :=
      if decide (item = "marriage_year") then "marriage_years" else item in
    <[search_query_item := VDict [("$gte", VInt (range_min range));
                                  ("$lte", VInt (range_max range))]]>
      search_query
  else search_query.

(** One turn of [for param, item in names_and_places.items()] with its
    inner loop over the single entry of [item] (lines 131-145). *)
Definition add_name (search_query : gmap string pyval)
    (entry : string * (string * pyval)) : gmap string pyval :=
  let '(param, (k, v)) := entry in
  if decide (param = "place") then
    let s := if Str.endswith "S" k then "S" else "_lc" in
    <["$or" := VList [VDict [("BIRT_PLAC" +:+ s, v)];
                      VDict [("MARR_PLAC" +:+ s, v)];
                      VDict [("DEAT_PLAC" +:+ s, v)]]]> search_query
  else <[k := v]> search_query.

(** Lines 147-154. *)
Definition add_tree_number (search_dict : list (string * string))
    (individual_id : option string) (search_query : gmap string pyval)
  : result (gmap string pyval) :=
  match dict_get search_dict "tree_number" with
  | Some t =>
      match int_of_str t with
      | Ok n =>
          let search_query := <["tree_num" := VInt n]> search_query in
          match individual_id with
          | Some i =>
              if truthy (VStr i) then Ok (<["id" := VStr i]> search_query)
              else Ok search_query
          | None => Ok search_query
          end
      | Raise (ValueError _) => abort 400 "Tree number must be an integer"
      | Raise e => Raise e
      end
  | None => Ok search_query
  end.

Definition build_query (search_dict : list (string * string))
  : result (gmap string pyval) :=
  let b := classify_all search_dict in
  names_and_places ← resolve_names (names_and_places b);
  years ← resolve_years (years b);
  let search_query : gmap string pyval :=
    {["archived" := VDict [("$exists", VBool false)]]} in
  let search_query := foldl add_year search_query years in
  let search_query :=
    match sex b with
    | Some s => if truthy (VStr s) then <["sex" := VStr s]> search_query
                else search_query
    | None => search_query
    end in
  let search_query := foldl add_name search_query names_and_places in
  search_query ← add_tree_number search_dict (individual_id b) search_query;
  let search_query :=
    if only_deceased b then <["deceased" := VBool true]> search_query
    else search_query in
  Ok search_query.

(** One turn of the loop of [build_search_dict]: each value of [kwargs] is
    the list of values the request gave for the key. *)
Definition take_first (search_dict : result (list (string * string)))
    (kv : string * list string) : result (list (string * string)) :=
  search_dict ← search_dict;
  let '(key, value) := kv in
  first ← list_index value 0;
  let search_dict := dict_set search_dict key first in
  if negb (truthy (VStr first))
  then abort 400 (key +:+ " argument couldn't be empty")
  else Ok search_dict.

Definition build_search_dict (kwargs : list (string * list string))
  : result (list (string * string)) :=
  foldl take_first (Ok []) kwargs.

(** ** The result sanitizer *)

(** [bhs_api.persons.is_living_person] and
    [bhs_api.persons.LIVING_PERSON_WHITELISTED_KEYS], from a module outside
    this file. *)
Variable is_living_person : pyval → pyval → bool.
Variable LIVING_PERSON_WHITELISTED_KEYS : list string.

Definition gedcom_names : list (string * string) :=
  [ ("BIRT_PLAC", "birth_place");
    ("DEAT_PLAC", "death_place");
    ("MARR_PLAC", "marriage_place");
    ("MARR_DATE", "marriage_date");
    ("OCCU", "occupation");
    ("NOTE", "bio") ].

(** [person.get(k)] *)
Definition person_get (person : gmap string pyval) (k : string) : pyval :=
  default VNone (person !! k).

(** [person[api_key] = person.pop(db_key)], a [KeyError] being passed over. *)
Definition translate (person : gmap string pyval) (names : string * string)
  : gmap string pyval :=
  let '(db_key, api_key) := names in
  match person !! db_key with
  | Some v => <[api_key := v]> (delete db_key person)
  | None => person
  end.

(** [clean_person(person)]. The last loop runs over [person.keys()], a list
    of its own in Python 2, so deleting while looping is safe. *)
Definition clean_person (person : gmap string pyval) : gmap string pyval :=
  let person := delete "_id" person in
  let person := foldl translate person gedcom_names in
  if is_living_person (person_get person "deceased")
                      (person_get person "birth_year")
  then filter (λ kv, kv.1 ∈ LIVING_PERSON_WHITELISTED_KEYS) person
  else person.

(** ** The search executor *)

(** [current_app.data_db], a database: its collections by name. *)
Variable current_app_data_db : string → collection.

(** [x[0] if isinstance(x, (list, tuple)) else x] *)
Definition first_if_sequence (x : pyval) : result pyval :=
  match x with
  | VList l => list_index l 0
  | _ => Ok x
  end.

(** [int(default if not x else x)] *)
Definition int_or_default (default : Z) (x : pyval) : result Z :=
  py_int (if negb (truthy x) then VInt default else x).

Definition projection : list (string * Z) :=
  [ ("name", 1); ("parents", 1); ("partners", 1); ("siblings", 1);
    ("tree_num", 1); ("id", 1); ("sex", 1); ("tree_version", 1);
    ("Slug", 1); ("birth_year", 1); ("death_year", 1); ("BIRT_PLAC", 1);
    ("DEAT_PLAC", 1); ("deceased", 1); ("marriage_years", 1) ].

(** [fsearch], with [kwargs] as its last argument. *)
Definition fsearch (max_results : pyval) (db : option (string → collection))
    (max_count_results : pyval) (kwargs : list (string * list string))
  : result (nat * list (gmap string pyval)) :=
  max_results ← first_if_sequence max_results;
  max_count_results ← first_if_sequence max_count_results;
  max_results ← int_or_default MAX_RESULTS max_results;
  max_count_results ← int_or_default MAX_COUNT_RESULTS max_count_results;
  let collection :=
    match db with
    | Some db => db "persons"
    | None => current_app_data_db "persons"
    end in
  search_dict ← build_search_dict kwargs;
  search_query ← build_query search_dict;
  let total :=
    if max_count_results =? -1
    then count (find collection search_query None) false
    else count (limit (find collection search_query None) max_count_results) true in
  let results := find collection search_query (Some projection) in
  results ← match dict_get search_dict "start" with
            | Some start => n ← int_of_str start; skip results n
            | None => Ok results
            end;
  let results := clean_person <$> fetch (limit results max_results) in
  Ok (total, results).

(** ** Auxiliary predicates of the statements *)

(** The first branch of the loop of [build_query]: the key goes to
    [names_and_places]. *)
Definition is_name_or_place (k : string) : bool :=
  Str.endswith "name" k || Str.endswith "place" k.

(** The second branch: the key goes to [years]. *)
Definition is_year (k : string) : bool :=
  negb (is_name_or_place k) && Str.contains "_year" k.

(** The key of [search_query] that an entry of [names_and_places] sets. *)
Definition written_key (entry : string * (string * pyval)) : string :=
  if decide (entry.1 = "place") then "$or" else entry.2.1.

(** The value it sets there. *)
Definition written_value (entry : string * (string * pyval)) : pyval :=
  let '(param, (k, v)) := entry in
  if decide (param = "place") then
    let s := if Str.endswith "S" k then "S" else "_lc" in
    VList [VDict [("BIRT_PLAC" +:+ s, v)];
           VDict [("MARR_PLAC" +:+ s, v)];
           VDict [("DEAT_PLAC" +:+ s, v)]]
  else v.

(** The fields that the parameters of [names_and_places] can resolve to. *)
Definition resolved_fields : list (string * string) :=
  [ ("first_name", "name_lc.0");
    ("last_name", "name_lc.1"); ("last_name", "nameS");
    ("birth_place", "BIRT_PLAC_lc"); ("birth_place", "BIRT_PLACS");
    ("marriage_place", "MARR_PLAC_lc"); ("marriage_place", "MARR_PLACS");
    ("death_place", "DEAT_PLAC_lc"); ("death_place", "DEAT_PLACS");
    ("place", "filler_lc"); ("place", "fillerS") ].

(** The keys of [search_query] that the code sets outside the loop over
    [names_and_places]. *)
Definition fixed_keys : list string :=
  ["archived"; "birth_year"; "death_year"; "marriage_years"; "sex";
   "tree_num"; "id"; "deceased"].

(** [split_arg[0]] of [value.split(';')]. *)
Definition search_str_of (value : string) : string :=
  default "" (Str.split ";" value !! 0%nat).

(** The portion of a string before the first occurrence of a character (all
    of it when there is none). *)
Fixpoint before (c : ascii) (s : string) : string :=
  match s with
  | "" => ""
  | String d s' => if decide (c = d) then "" else String d (before c s')
  end.

(** The [search_query] of [build_query] before the [tree_number] test. *)
Definition assemble (b : buckets) (years : list (string * year_range))
    (names_and_places : list (string * (string * pyval)))
  : gmap string pyval :=
  let search_query : gmap string pyval :=
    {["archived" := VDict [("$exists", VBool false)]]} in
  let search_query := foldl add_year search_query years in
  let search_query :=
    match sex b with
    | Some s => if truthy (VStr s) then <["sex" := VStr s]> search_query
                else search_query
    | None => search_query
    end in
  foldl add_name search_query names_and_places.

(** The key of [search_query] that a year parameter sets. *)
Definition year_field (item : string) : string :=
  if decide (item = "marriage_year") then "marriage_years" else item.

(** The value of a year parameter reads as the year [Y] and the fudge factor
    [F] (0 when there is no colon). *)
Definition parses_as_year (value : string) (Y F : Z) : Prop :=
  if Str.contains ":" value then
    ∃ y f, Str.split ":" value !! 0%nat = Some y ∧ parse_int y = Some Y ∧
           Str.split ":" value !! 1%nat = Some f ∧ parse_int f = Some F
  else parse_int value = Some Y ∧ F = 0.

(** The match is phonetic: [split_arg[1]], the piece after the first
    semicolon of the lower-cased value, is [phonetic]. *)
Definition is_phonetic (value : string) : bool :=
  bool_decide (Str.split ";" (Str.lower value) !! 1%nat = Some "phonetic").

(** The indexed field of a specific place parameter, without its suffix. *)
Definition place_field (param : string) : string :=
  if decide (param = "birth_place") then "BIRT_PLAC"
  else if decide (param = "marriage_place") then "MARR_PLAC"
  else "DEAT_PLAC".

(** The clause of a compiled filter on a field, if there is one. *)
Definition clause (r : result (gmap string pyval)) (field : string)
  : option pyval :=
  match r with
  | Ok search_query => search_query !! field
  | Raise _ => None
  end.

(** A value that [not x] accepts, once [x[0]] is taken of a sequence. *)
Definition falsy_argument (x : pyval) : Prop :=
  match x with
  | VList (v :: _) => truthy v = false
  | VList [] => False
  | v => truthy v = false
  end.

(** The record after [del person['_id']] and the renaming loop, before the
    living-person test. *)
Definition translated (person : gmap string pyval) : gmap string pyval :=
  foldl translate (delete "_id" person) gedcom_names.

(** The keys that only the database uses. *)
Definition storage_keys : list string := "_id" :: gedcom_names.*1.

(** The collection that [fsearch] searches: [db['persons']] when a database
    is given, else that of the application. *)
Definition persons_collection (db : option (string → collection)) : collection :=
  match db with
  | Some db => db "persons"
  | None => current_app_data_db "persons"
  end.

(** The number of the first record of the page: [int(search_dict['start'])]
    or 0. *)
Definition first_record (search_dict : list (string * string)) (first : nat)
  : Prop :=
  match dict_get search_dict "start" with
  | Some start => int_of_str start = Ok (Z.of_nat first)
  | None => first = 0%nat
  end.

(** Forgets the collaborators that the goal does not mention, so that the
    solvers do not pick them up. *)
Ltac forget_collaborators :=
  try clear is_living_person;
  try clear LIVING_PERSON_WHITELISTED_KEYS;
  try clear current_app_data_db;
  try clear re_wellformed;
  try clear get_bhp_soundex.

(** ** The error monad *)

Lemma bind_Ok {A B} (a : A) (k : A → result B) : (Ok a ≫= k) = k a.
Proof. reflexivity. Qed.

Lemma is_Ok_from_Ok {A} (r : result A) default :
  is_Ok r = true → r = Ok (from_Ok default r).
Proof. by destruct r. Qed.

Lemma bind_Ok_inv {A B} (r : result A) (k : A → result B) b :
  (r ≫= k) = Ok b → ∃ a, r = Ok a ∧ k a = Ok b.
Proof. destruct r as [a|e]; [eauto | discriminate]. Qed.

Lemma for_each_Ok {A B} (f : A → result B) l ys :
  for_each f l = Ok ys → Forall2 (λ x y, f x = Ok y) l ys.
Proof.
  revert ys. induction l as [|x l IH]; intros ys H; simpl in H.
  - injection H as <-. constructor.
  - apply bind_Ok_inv in H as (y & Hy & H).
    apply bind_Ok_inv in H as (ys' & Hys & H).
    injection H as <-. constructor; auto.
Qed.

(** ** Iterated dicts *)

Lemma dict_set_fresh {V} (d : list (string * V)) k v :
  k ∉ keys d → dict_set d k v = d ++ [(k, v)].
Proof.
  induction d as [|[k' v'] d IH]; simpl; [done|].
  intros Hk. apply not_elem_of_cons in Hk as [Hne Hk].
  destruct (decide (k' = k)); [congruence|]. by rewrite IH.
Qed.

Lemma dict_get_Some_elem {V} (d : list (string * V)) k v :
  dict_get d k = Some v → (k, v) ∈ d.
Proof.
  induction d as [|[k' v'] d IH]; simpl; [done|].
  destruct (decide (k' = k)) as [->|]; intros H.
  - injection H as ->. left.
  - right. auto.
Qed.

Lemma dict_get_elem {V} (d : list (string * V)) k v :
  NoDup (keys d) → (k, v) ∈ d → dict_get d k = Some v.
Proof.
  induction d as [|[k' v'] d IH]; simpl; intros Hnd Hin.
  - by apply elem_of_nil in Hin.
  - apply NoDup_cons in Hnd as [Hk' Hnd].
    apply elem_of_cons in Hin as [Heq|Hin].
    + injection Heq as -> ->. by rewrite decide_True.
    + destruct (decide (k' = k)) as [->|]; [|auto].
      destruct Hk'. unfold keys. apply list_elem_of_fmap. by exists (k, v).
Qed.

Lemma dict_get_None {V} (d : list (string * V)) k :
  dict_get d k = None ↔ k ∉ keys d.
Proof.
  induction d as [|[k' v'] d IH]; simpl.
  - split; [intros _; apply not_elem_of_nil | done].
  - rewrite not_elem_of_cons, <- IH.
    destruct (decide (k' = k)) as [->|Hne].
    + split; [discriminate | intros []; congruence].
    + split; [intros; split; congruence | intros []; congruence].
Qed.


(** ** The classification loop *)

Lemma classify_names b k v :
  names_and_places (classify b (k, v)) =
  if is_name_or_place k then dict_set (names_and_places b) k (Str.lower v)
  else names_and_places b.
Proof.
  unfold classify, is_name_or_place.
  destruct (Str.endswith "name" k), (Str.endswith "place" k),
    (Str.contains "_year" k); simpl; try done;
    repeat (case_decide || case_bool_decide); done.
Qed.

Lemma classify_years b k v :
  years (classify b (k, v)) =
  if is_year k then dict_set (years b) k v else years b.
Proof.
  unfold classify, is_year, is_name_or_place.
  destruct (Str.endswith "name" k), (Str.endswith "place" k),
    (Str.contains "_year" k); simpl; try done;
    repeat (case_decide || case_bool_decide); done.
Qed.

Lemma classify_only_deceased b k v :
  only_deceased (classify b (k, v)) =
  only_deceased b || (Str.endswith "place" k || Str.contains "_year" k).
Proof.
  unfold classify.
  destruct (Str.endswith "name" k), (Str.endswith "place" k),
    (Str.contains "_year" k), (only_deceased b) eqn:?; simpl; try done;
    repeat (case_decide || case_bool_decide); done.
Qed.

(** A key that no branch of the loop takes leaves the locals as they are. *)
Lemma classify_ignored b k v :
  is_name_or_place k = false → Str.contains "_year" k = false →
  k ≠ "sex" → k ≠ "individual_id" → classify b (k, v) = b.
Proof.
  unfold classify, is_name_or_place. intros Hnp Hy Hs Hi.
  apply orb_false_iff in Hnp as [-> Hp]. rewrite Hp, Hy. simpl.
  rewrite !decide_False by done. by destruct b.
Qed.

Lemma foldl_classify_only_deceased sd b :
  only_deceased (foldl classify b sd) =
  only_deceased b ||
  existsb (λ k, Str.endswith "place" k || Str.contains "_year" k) (keys sd).
Proof.
  revert b. induction sd as [|[k v] sd IH]; intros b; cbn [foldl].
  - simpl. by rewrite orb_false_r.
  - rewrite IH, classify_only_deceased. simpl.
    by destruct (only_deceased b), (Str.endswith "place" k),
      (Str.contains "_year" k).
Qed.

Lemma foldl_classify_names sd b :
  NoDup (keys (names_and_places b) ++ keys sd) →
  names_and_places (foldl classify b sd) =
  names_and_places b ++
  (prod_map id Str.lower <$> filter (λ kv, is_name_or_place kv.1) sd).
Proof.
  revert b. induction sd as [|[k v] sd IH]; intros b Hnd; cbn [foldl].
  - simpl. by rewrite app_nil_r.
  - change (keys ((k, v) :: sd)) with (k :: keys sd) in Hnd.
    assert ((k ∉ keys (names_and_places b)) ∧ (k ∉ keys sd) ∧
            NoDup (keys (names_and_places b) ++ keys sd)) as (Hk1 & Hk2 & Hnd').
    { apply NoDup_app in Hnd as (Hnd1 & Hdisj & Hnd2).
      apply NoDup_cons in Hnd2 as [Hk2 Hnd2]. split_and!; [|done|].
      - intros Hk. apply (Hdisj _ Hk). left.
      - apply NoDup_app. split_and!; [done| |done].
        intros x Hx Hx'. apply (Hdisj _ Hx). by right. }
    rewrite IH, classify_names.
    + rewrite filter_cons. simpl. destruct (is_name_or_place k) eqn:Hnp.
      * rewrite decide_True by done. rewrite dict_set_fresh by done.
        by rewrite <- app_assoc.
      * rewrite decide_False by (by intros ?). done.
    + rewrite classify_names. destruct (is_name_or_place k); [|done].
      rewrite dict_set_fresh by done. unfold keys in *.
      rewrite fmap_app. simpl. rewrite <- app_assoc. simpl.
      apply NoDup_app in Hnd' as (Hnd1 & Hdisj & Hnd2).
      apply NoDup_app. split_and!; [done| |by apply NoDup_cons].
      intros x Hx Hx'. apply elem_of_cons in Hx' as [->|Hx']; [done|].
      by apply (Hdisj x).
Qed.

Lemma foldl_classify_years sd b :
  NoDup (keys (years b) ++ keys sd) →
  years (foldl classify b sd) =
  years b ++ filter (λ kv, is_year kv.1) sd.
Proof.
  revert b. induction sd as [|[k v] sd IH]; intros b Hnd; cbn [foldl].
  - simpl. by rewrite app_nil_r.
  - change (keys ((k, v) :: sd)) with (k :: keys sd) in Hnd.
    assert ((k ∉ keys (years b)) ∧ (k ∉ keys sd) ∧
            NoDup (keys (years b) ++ keys sd)) as (Hk1 & Hk2 & Hnd').
    { apply NoDup_app in Hnd as (Hnd1 & Hdisj & Hnd2).
      apply NoDup_cons in Hnd2 as [Hk2 Hnd2]. split_and!; [|done|].
      - intros Hk. apply (Hdisj _ Hk). left.
      - apply NoDup_app. split_and!; [done| |done].
        intros x Hx Hx'. apply (Hdisj _ Hx). by right. }
    rewrite IH, classify_years.
    + rewrite filter_cons. simpl. destruct (is_year k) eqn:Hy.
      * rewrite decide_True by done. rewrite dict_set_fresh by done.
        by rewrite <- app_assoc.
      * rewrite decide_False by (by intros ?). done.
    + rewrite classify_years. destruct (is_year k); [|done].
      rewrite dict_set_fresh by done. unfold keys in *.
      rewrite fmap_app. simpl. rewrite <- app_assoc. simpl.
      apply NoDup_app in Hnd' as (Hnd1 & Hdisj & Hnd2).
      apply NoDup_app. split_and!; [done| |by apply NoDup_cons].
      intros x Hx Hx'. apply elem_of_cons in Hx' as [->|Hx']; [done|].
      by apply (Hdisj x).
Qed.

(** The two buckets of a well-formed [search_dict]. *)
Lemma classify_all_names sd :
  NoDup (keys sd) →
  names_and_places (classify_all sd) =
  prod_map id Str.lower <$> filter (λ kv, is_name_or_place kv.1) sd.
Proof. intros Hnd. unfold classify_all. by rewrite foldl_classify_names. Qed.

Lemma classify_all_years sd :
  NoDup (keys sd) →
  years (classify_all sd) = filter (λ kv, is_year kv.1) sd.
Proof. intros Hnd. unfold classify_all. by rewrite foldl_classify_years. Qed.

Lemma classify_all_only_deceased sd :
  only_deceased (classify_all sd) =
  existsb (λ k, Str.endswith "place" k || Str.contains "_year" k) (keys sd).
Proof. unfold classify_all. by rewrite foldl_classify_only_deceased. Qed.

(** ** Names and places *)

Lemma split_go_head sep skip cur s :
  ∃ x xs, Str.split_go sep skip cur s = x :: xs.
Proof.
  revert skip cur. induction s as [|c s IH]; intros skip cur;
    cbn [Str.split_go]; [eauto|].
  destruct skip; [|apply IH].
  destruct (String.prefix sep (String c s)); [eauto | apply IH].
Qed.

Lemma split_index_0 sep s :
  list_index (Str.split sep s) 0 = Ok (default "" (Str.split sep s !! 0%nat)).
Proof.
  unfold list_index, Str.split.
  by destruct (split_go_head sep 0 "" s) as (x & xs & ->).
Qed.

Lemma resolve_first_name v :
  resolve_name "first_name" v = Ok ("name_lc.0", VStr (search_str_of v)).
Proof.
  unfold resolve_name. rewrite split_index_0. reflexivity.
Qed.


Ltac resolve_cases :=
  repeat match goal with
  | H : context [decide (?a = ?b)] |- _ => destruct (decide (a = b)); simplify_eq/=
  | H : context [(1 <? ?n)%nat] |- _ => destruct (1 <? n)%nat; simplify_eq/=
  | H : context [list_index ?l ?i] |- _ => destruct (list_index l i); simplify_eq/=
  | H : context [re_compile ?p] |- _ => destruct (re_compile p); simplify_eq/=
  end.

(** A parameter resolves to its indexed field or to the phonetic one. *)
Lemma resolve_name_fields p v f x :
  resolve_name p v = Ok (f, x) →
  is_name_or_place p = true → (p, f) ∈ resolved_fields.
Proof.
  forget_collaborators. unfold resolve_name, dict_index. intros H Hnp.
  destruct (dict_get ARGS_TO_INDEX p) as [fn|] eqn:Hfn; [|discriminate].
  rewrite split_index_0 in H. simpl in H, Hfn.
  repeat (case_decide; [subst p; injection Hfn as <-|]); [..|discriminate];
    try discriminate Hnp;
    resolve_cases; unfold resolved_fields; set_solver.
Qed.

(** Distinct parameters set distinct keys, none of them a fixed key. *)
Lemma written_key_inj p f x p' f' x' :
  (p, f) ∈ resolved_fields → (p', f') ∈ resolved_fields →
  written_key (p, (f, x)) = written_key (p', (f', x')) → p = p'.
Proof.
  unfold written_key, resolved_fields. cbn [fst snd]. intros Hp Hp'.
  repeat (apply elem_of_cons in Hp as [Hp|Hp]; [injection Hp as -> ->|]);
    [..|by apply elem_of_nil in Hp];
    (repeat (apply elem_of_cons in Hp' as [Hp'|Hp']; [injection Hp' as -> ->|]);
     [..|by apply elem_of_nil in Hp']); by vm_compute.
Qed.

Lemma written_key_not_fixed p f x :
  (p, f) ∈ resolved_fields → written_key (p, (f, x)) ∉ fixed_keys.
Proof.
  unfold written_key, resolved_fields, fixed_keys. cbn [fst snd]. intros Hp.
  repeat (apply elem_of_cons in Hp as [Hp|Hp]; [injection Hp as -> ->|]);
    [..|by apply elem_of_nil in Hp];
    apply (bool_decide_unpack _); by vm_compute.
Qed.

(** ** Filter assembly *)

Lemma add_name_insert q e :
  add_name q e = <[written_key e := written_value e]> q.
Proof.
  destruct e as [param [k v]]. unfold add_name, written_key, written_value.
  simpl. by case_decide.
Qed.

Lemma foldl_add_name_lookup_ne q l k :
  (∀ e, e ∈ l → written_key e ≠ k) →
  foldl add_name q l !! k = q !! k.
Proof.
  revert q. induction l as [|e l IH]; intros q Hl; cbn [foldl]; [done|].
  rewrite IH by (intros e' He'; apply Hl; by right).
  rewrite add_name_insert, lookup_insert_ne; [done|]. apply Hl. left.
Qed.

Lemma foldl_add_name_lookup q l e :
  e ∈ l → (∀ e', e' ∈ l → written_key e' = written_key e → e' = e) →
  foldl add_name q l !! written_key e = Some (written_value e).
Proof.
  induction l as [|e0 l IH] using rev_ind; intros Hin Huniq.
  - by apply elem_of_nil in Hin.
  - rewrite foldl_app. cbn [foldl]. rewrite add_name_insert.
    destruct (decide (written_key e0 = written_key e)) as [Heq|Hne].
    + rewrite (Huniq e0) by (done || (apply elem_of_app; right; left)).
      apply lookup_insert_eq.
    + rewrite lookup_insert_ne by done. apply IH.
      * apply elem_of_app in Hin as [Hin|Hin]; [done|].
        apply list_elem_of_singleton in Hin. congruence.
      * intros e' He'. apply Huniq, elem_of_app. by left.
Qed.

Lemma add_year_lookup_ne q e k :
  k ∉ ["birth_year"; "death_year"; "marriage_years"] →
  add_year q e !! k = q !! k.
Proof.
  destruct e as [item range]. unfold add_year. intros Hk.
  case_bool_decide as Hitem; [|done].
  apply lookup_insert_ne. intros <-. apply Hk.
  case_decide; [by apply (bool_decide_unpack _)|].
  repeat (apply elem_of_cons in Hitem as [->|Hitem]);
    [done|by apply (bool_decide_unpack _)..|by apply elem_of_nil in Hitem].
Qed.

Lemma foldl_add_year_lookup_ne q l k :
  k ∉ ["birth_year"; "death_year"; "marriage_years"] →
  foldl add_year q l !! k = q !! k.
Proof.
  intros Hk. revert q. induction l as [|e l IH]; intros q; cbn [foldl]; [done|].
  by rewrite IH, add_year_lookup_ne.
Qed.

Lemma year_field_inj item item' :
  item ∈ ["marriage_year"; "birth_year"; "death_year"] →
  item' ∈ ["marriage_year"; "birth_year"; "death_year"] →
  year_field item = year_field item' → item = item'.
Proof.
  intros H H'.
  repeat (apply elem_of_cons in H as [->|H]); [..|by apply elem_of_nil in H];
    (repeat (apply elem_of_cons in H' as [->|H']);
     [..|by apply elem_of_nil in H']); by vm_compute.
Qed.

Lemma add_year_insert q item range :
  item ∈ ["marriage_year"; "birth_year"; "death_year"] →
  add_year q (item, range) =
  <[year_field item := VDict [("$gte", VInt (range_min range));
                              ("$lte", VInt (range_max range))]]> q.
Proof. intros H. unfold add_year, year_field. by rewrite bool_decide_true. Qed.

Lemma foldl_add_year_lookup q l item range :
  NoDup (keys l) → (item, range) ∈ l →
  item ∈ ["marriage_year"; "birth_year"; "death_year"] →
  foldl add_year q l !! year_field item =
  Some (VDict [("$gte", VInt (range_min range));
               ("$lte", VInt (range_max range))]).
Proof.
  intros Hnd Hin Hitem. revert Hnd Hin.
  induction l as [|[item0 range0] l IH] using rev_ind; intros Hnd Hin.
  - by apply elem_of_nil in Hin.
  - rewrite foldl_app. cbn [foldl].
    unfold keys in Hnd. rewrite fmap_app in Hnd.
    apply NoDup_app in Hnd as (Hnd & Hdisj & _).
    apply elem_of_app in Hin as [Hin|Hin].
    + assert (item0 ≠ item) as Hne.
      { intros ->. apply (Hdisj item); [|left].
        apply list_elem_of_fmap. by exists (item, range). }
      destruct (decide (item0 ∈ ["marriage_year"; "birth_year"; "death_year"]))
        as [H0|H0].
      * rewrite add_year_insert by done.
        rewrite lookup_insert_ne; [by apply IH|].
        intros Heq. by apply Hne, year_field_inj.
      * unfold add_year. rewrite bool_decide_false by done. by apply IH.
    + apply list_elem_of_singleton in Hin. injection Hin as -> ->.
      rewrite add_year_insert by done. apply lookup_insert_eq.
Qed.

(** The query before the [tree_number] test, key by key. *)
Lemma assemble_lookup_name b ys nps e :
  e ∈ nps → (∀ e', e' ∈ nps → written_key e' = written_key e → e' = e) →
  assemble b ys nps !! written_key e = Some (written_value e).
Proof. intros. unfold assemble. by apply foldl_add_name_lookup. Qed.

Lemma assemble_lookup_year b ys nps item range :
  NoDup (keys ys) → (item, range) ∈ ys →
  item ∈ ["marriage_year"; "birth_year"; "death_year"] →
  (∀ e, e ∈ nps → written_key e ∉ fixed_keys) →
  assemble b ys nps !! year_field item =
  Some (VDict [("$gte", VInt (range_min range));
               ("$lte", VInt (range_max range))]).
Proof.
  forget_collaborators.
  intros Hnd Hin Hitem Hnps. unfold assemble.
  assert (year_field item ∈ ["birth_year"; "death_year"; "marriage_years"])
    as Hyf.
  { repeat (apply elem_of_cons in Hitem as [->|Hitem]);
      [..|by apply elem_of_nil in Hitem]; apply (bool_decide_unpack _);
      by vm_compute. }
  rewrite foldl_add_name_lookup_ne.
  - assert (year_field item ≠ "sex") as Hsex.
    { intros Heq. rewrite Heq in Hyf. revert Hyf.
      apply (bool_decide_unpack _). by vm_compute. }
    destruct (sex b) as [s|]; [destruct (truthy (VStr s))|];
      rewrite ?lookup_insert_ne by done; by apply foldl_add_year_lookup.
  - intros e He Heq. apply (Hnps e He). rewrite Heq. unfold fixed_keys.
    set_solver.
Qed.

Lemma assemble_lookup_None b ys nps k :
  k ∉ fixed_keys → (∀ e, e ∈ nps → written_key e ≠ k) →
  assemble b ys nps !! k = None.
Proof.
  forget_collaborators.
  intros Hk Hnps. unfold assemble. rewrite foldl_add_name_lookup_ne by done.
  assert (k ≠ "sex") as Hsex by (unfold fixed_keys in Hk; set_solver).
  assert (k ∉ ["birth_year"; "death_year"; "marriage_years"]) as Hy
    by (unfold fixed_keys in Hk; set_solver).
  destruct (sex b) as [s|]; [destruct (truthy (VStr s))|];
    rewrite ?lookup_insert_ne by done;
    rewrite foldl_add_year_lookup_ne by done;
    apply lookup_singleton_ne; unfold fixed_keys in Hk; set_solver.
Qed.

(** ** [build_query] as a whole *)

Lemma build_query_unfold sd :
  build_query sd =
  (nps ← resolve_names (names_and_places (classify_all sd));
   ys ← resolve_years (years (classify_all sd));
   q ← add_tree_number sd (individual_id (classify_all sd))
         (assemble (classify_all sd) ys nps);
   Ok (if only_deceased (classify_all sd)
       then <["deceased" := VBool true]> q else q)).
Proof. reflexivity. Qed.

Lemma build_query_Ok sd q :
  build_query sd = Ok q →
  ∃ nps ys q',
    resolve_names (names_and_places (classify_all sd)) = Ok nps ∧
    resolve_years (years (classify_all sd)) = Ok ys ∧
    add_tree_number sd (individual_id (classify_all sd))
      (assemble (classify_all sd) ys nps) = Ok q' ∧
    q = (if only_deceased (classify_all sd)
         then <["deceased" := VBool true]> q' else q').
Proof.
  rewrite build_query_unfold. intros H.
  apply bind_Ok_inv in H as (nps & Hnps & H).
  apply bind_Ok_inv in H as (ys & Hys & H).
  apply bind_Ok_inv in H as (q' & Hq' & H).
  injection H as <-. eauto 10.
Qed.

(** The [tree_number] test adds [tree_num] and [id] and removes nothing. *)
Lemma add_tree_number_lookup_ne sd i q q' k :
  add_tree_number sd i q = Ok q' → k ≠ "tree_num" → k ≠ "id" →
  q' !! k = q !! k.
Proof.
  unfold add_tree_number. intros H Hk1 Hk2.
  destruct (dict_get sd "tree_number") as [t|]; [|by injection H as <-].
  destruct (int_of_str t) as [n|[]]; try discriminate.
  destruct i as [i|]; [destruct (truthy (VStr i))|]; injection H as <-;
    by rewrite ?lookup_insert_ne by done.
Qed.

Lemma build_query_lookup_ne sd q nps ys k :
  build_query sd = Ok q →
  resolve_names (names_and_places (classify_all sd)) = Ok nps →
  resolve_years (years (classify_all sd)) = Ok ys →
  k ≠ "tree_num" → k ≠ "id" → k ≠ "deceased" →
  q !! k = assemble (classify_all sd) ys nps !! k.
Proof.
  intros (nps' & ys' & q' & Hnps & Hys & Hq' & ->)%build_query_Ok Hnps' Hys'
    Hk1 Hk2 Hk3.
  assert (nps' = nps) as -> by congruence.
  assert (ys' = ys) as -> by congruence.
  destruct (only_deceased _);
    rewrite ?lookup_insert_ne by done;
    by apply (add_tree_number_lookup_ne _ _ _ _ _ Hq').
Qed.

(** What the entries of the resolved [names_and_places] are. *)
Lemma resolve_names_Ok nps rs :
  resolve_names nps = Ok rs →
  Forall2 (λ np r, r.1 = np.1 ∧ resolve_name np.1 np.2 = Ok r.2) nps rs.
Proof.
  intros H%for_each_Ok. eapply Forall2_impl; [exact H|].
  intros [p v] [p' r] Hr. simpl in *.
  apply bind_Ok_inv in Hr as (qf & Hqf & Hr). by injection Hr as <- <-.
Qed.

Lemma resolve_names_elem nps rs p v :
  resolve_names nps = Ok rs → (p, v) ∈ nps →
  ∃ f x, resolve_name p v = Ok (f, x) ∧ (p, (f, x)) ∈ rs.
Proof.
  intros H%resolve_names_Ok Hin.
  apply list_elem_of_lookup in Hin as [i Hi].
  destruct (Forall2_lookup_l _ _ _ _ _ H Hi) as ([p' [f x]] & Hi' & Hp & Hr).
  simpl in *. subst p'. exists f, x. split; [done|].
  by apply list_elem_of_lookup_2 in Hi'.
Qed.

Lemma resolve_names_elem_inv nps rs p f x :
  resolve_names nps = Ok rs → (p, (f, x)) ∈ rs →
  ∃ v, (p, v) ∈ nps ∧ resolve_name p v = Ok (f, x).
Proof.
  intros H%resolve_names_Ok Hin.
  apply list_elem_of_lookup in Hin as [i Hi].
  destruct (Forall2_lookup_r _ _ _ _ _ H Hi) as ([p' v] & Hi' & Hp & Hr).
  simpl in *. subst p'. exists v. split; [|done].
  by apply list_elem_of_lookup_2 in Hi'.
Qed.

Lemma resolve_years_Ok ys rs :
  resolve_years ys = Ok rs →
  Forall2 (λ y r, r.1 = y.1 ∧ resolve_year y.2 = Ok r.2) ys rs.
Proof.
  intros H%for_each_Ok. eapply Forall2_impl; [exact H|].
  intros [p v] [p' r] Hr. simpl in *.
  apply bind_Ok_inv in Hr as (qf & Hqf & Hr). by injection Hr as <- <-.
Qed.

Lemma resolve_years_elem ys rs k v :
  resolve_years ys = Ok rs → (k, v) ∈ ys →
  ∃ r, resolve_year v = Ok r ∧ (k, r) ∈ rs.
Proof.
  intros H%resolve_years_Ok Hin.
  apply list_elem_of_lookup in Hin as [i Hi].
  destruct (Forall2_lookup_l _ _ _ _ _ H Hi) as ([k' r] & Hi' & Hk & Hr).
  simpl in *. subst k'. exists r. split; [done|].
  by apply list_elem_of_lookup_2 in Hi'.
Qed.

Lemma resolve_years_keys ys rs :
  resolve_years ys = Ok rs → keys rs = keys ys.
Proof.
  intros H%resolve_years_Ok. unfold keys.
  induction H as [|[p v] [p' r] ys rs [Hp _] _ IH]; [done|].
  rewrite !fmap_cons. simpl in *. by f_equal.
Qed.

(** The buckets of a well-formed [search_dict], entry by entry. *)
Lemma names_and_places_elem sd k v :
  NoDup (keys sd) → (k, v) ∈ sd → is_name_or_place k = true →
  (k, Str.lower v) ∈ names_and_places (classify_all sd).
Proof.
  intros Hnd Hin Hnp. rewrite classify_all_names by done.
  apply list_elem_of_fmap. exists (k, v). split; [done|].
  apply list_elem_of_filter. split; [|done]. simpl. by rewrite Hnp.
Qed.

Lemma names_and_places_elem_inv sd k v' :
  NoDup (keys sd) → (k, v') ∈ names_and_places (classify_all sd) →
  is_name_or_place k = true ∧ ∃ v, (k, v) ∈ sd ∧ v' = Str.lower v.
Proof.
  intros Hnd. rewrite classify_all_names by done.
  intros ([k0 v] & Heq & [Hnp Hin]%list_elem_of_filter)%list_elem_of_fmap.
  simpl in *. injection Heq as -> ->. split; [by apply Is_true_true|].
  eauto.
Qed.

Lemma names_and_places_NoDup sd :
  NoDup (keys sd) → NoDup (keys (names_and_places (classify_all sd))).
Proof.
  intros Hnd. rewrite classify_all_names by done. unfold keys in *.
  rewrite <- list_fmap_compose.
  erewrite list_fmap_ext with (g := fst) by (by intros ? [? ?]).
  eapply sublist_NoDup; [exact Hnd|].
  apply fmap_sublist, sublist_filter.
Qed.

Lemma years_NoDup sd :
  NoDup (keys sd) → NoDup (keys (years (classify_all sd))).
Proof.
  intros Hnd. rewrite classify_all_years by done. unfold keys in *.
  eapply sublist_NoDup; [exact Hnd|].
  apply fmap_sublist, sublist_filter.
Qed.

Lemma years_elem sd k v :
  NoDup (keys sd) → (k, v) ∈ sd → is_year k = true →
  (k, v) ∈ years (classify_all sd).
Proof.
  intros Hnd Hin Hy. rewrite classify_all_years by done.
  apply list_elem_of_filter. split; [|done]. simpl. by rewrite Hy.
Qed.

(** ** Splitting at one character *)

Lemma append_cons c s1 s2 : String c s1 +:+ s2 = String c (s1 +:+ s2).
Proof. reflexivity. Qed.

Lemma append_empty_r s : s +:+ "" = s.
Proof. induction s as [|c s IH]; [done|]. by rewrite append_cons, IH. Qed.

Lemma append_assoc s1 s2 s3 : (s1 +:+ s2) +:+ s3 = s1 +:+ (s2 +:+ s3).
Proof.
  induction s1 as [|c s1 IH]; [done|]. by rewrite !append_cons, IH.
Qed.

Lemma rev_app_append s1 s2 : String.rev_app s1 s2 = String.rev s1 +:+ s2.
Proof.
  unfold String.rev. revert s2. induction s1 as [|c s1 IH]; intros s2; [done|].
  cbn [String.rev_app]. rewrite (IH (String c "")), (IH (String c s2)).
  by rewrite append_assoc.
Qed.

Lemma split_go_char_head c cur s :
  Str.split_go (String c "") 0 cur s !! 0%nat =
  Some (String.rev cur +:+ before c s).
Proof.
  revert cur. induction s as [|d s IH]; intros cur.
  - simpl. by rewrite append_empty_r.
  - cbn [Str.split_go String.prefix before].
    destruct (ascii_dec c d) as [->|Hne].
    + rewrite decide_True by done.
      assert (String.prefix "" s = true) as -> by (by destruct s).
      simpl. by rewrite append_empty_r.
    + rewrite decide_False by done. rewrite IH.
      unfold String.rev. cbn [String.rev_app].
      rewrite (rev_app_append cur (String d "")).
      by rewrite append_assoc.
Qed.

Lemma search_str_of_before v : search_str_of v = before ";" v.
Proof.
  unfold search_str_of, Str.split. by rewrite split_go_char_head.
Qed.

Lemma lower_char_semicolon d :
  Str.lower_char d = ";"%char ↔ d = ";"%char.
Proof.
  destruct d as [[] [] [] [] [] [] [] []]; vm_compute; split; congruence.
Qed.

Lemma before_lower v :
  before ";" (Str.lower v) = Str.lower (before ";" v).
Proof.
  induction v as [|d v IH]; [done|]. cbn [Str.lower Str.map before].
  destruct (decide (";"%char = d)) as [<-|Hne]; [done|].
  rewrite decide_False.
  - change (Str.lower (String d (before ";" v)))
      with (String (Str.lower_char d) (Str.lower (before ";" v))).
    f_equal. apply IH.
  - intros Heq. apply Hne. symmetry. by apply lower_char_semicolon.
Qed.

Lemma before_append c a b :
  before c a = a → before c (a +:+ String c b) = a.
Proof.
  induction a as [|d a IH]; cbn [before].
  - intros _. change ("" +:+ String c b) with (String c b).
    cbn [before]. by rewrite decide_True.
  - rewrite append_cons. cbn [before].
    destruct (decide (c = d)); [discriminate|].
    intros H. injection H as H. by rewrite IH.
Qed.

(** ** Clauses of the compiled filter *)

Lemma dict_elem_unique {V} (d : list (string * V)) k v v' :
  NoDup (keys d) → (k, v) ∈ d → (k, v') ∈ d → v = v'.
Proof.
  intros Hnd H H'. apply (dict_get_elem _ _ _ Hnd) in H, H'. congruence.
Qed.

(** A name or place parameter sets its own key, to its own value. *)
Lemma build_query_name_clause sd q p v :
  NoDup (keys sd) → (p, v) ∈ sd → is_name_or_place p = true →
  build_query sd = Ok q →
  ∃ f x, resolve_name p (Str.lower v) = Ok (f, x) ∧
         (p, f) ∈ resolved_fields ∧
         q !! written_key (p, (f, x)) = Some (written_value (p, (f, x))).
Proof.
  intros Hnd Hin Hnp Hq.
  destruct (build_query_Ok _ _ Hq) as (nps & ys & q' & Hnps & Hys & _).
  pose proof (names_and_places_elem _ _ _ Hnd Hin Hnp) as Hin'.
  destruct (resolve_names_elem _ _ _ _ Hnps Hin') as (f & x & Hr & He).
  pose proof (resolve_name_fields _ _ _ _ Hr Hnp) as Hf.
  exists f, x. split_and!; [done..|].
  pose proof (written_key_not_fixed _ _ x Hf) as Hfix.
  rewrite (build_query_lookup_ne _ _ _ _ _ Hq Hnps Hys);
    [|intros Heq; apply Hfix; rewrite Heq; by apply (bool_decide_unpack _)..].
  apply assemble_lookup_name; [done|].
  intros [p' [f' x']] He' Hk.
  destruct (resolve_names_elem_inv _ _ _ _ _ Hnps He') as (v' & Hv' & Hr').
  destruct (names_and_places_elem_inv _ _ _ Hnd Hv') as [Hnp' _].
  pose proof (resolve_name_fields _ _ _ _ Hr' Hnp') as Hf'.
  pose proof (written_key_inj _ _ _ _ _ _ Hf' Hf Hk) as ->.
  pose proof (dict_elem_unique _ _ _ _ (names_and_places_NoDup _ Hnd) Hv' Hin')
    as ->.
  congruence.
Qed.

(** A key that no supplied parameter sets is absent from the filter. *)
Lemma build_query_absent sd q k :
  NoDup (keys sd) → build_query sd = Ok q → k ∉ fixed_keys →
  (∀ p f x, (p, f) ∈ resolved_fields → written_key (p, (f, x)) = k →
            p ∉ keys sd) →
  q !! k = None.
Proof.
  intros Hnd Hq Hk Hp.
  destruct (build_query_Ok _ _ Hq) as (nps & ys & q' & Hnps & Hys & _).
  rewrite (build_query_lookup_ne _ _ _ _ _ Hq Hnps Hys);
    [|intros ->; apply Hk; by apply (bool_decide_unpack _)..].
  apply assemble_lookup_None; [done|].
  intros [p [f x]] He Hkey.
  destruct (resolve_names_elem_inv _ _ _ _ _ Hnps He) as (v' & Hv' & Hr').
  destruct (names_and_places_elem_inv _ _ _ Hnd Hv') as [Hnp' (v & Hv & _)].
  apply (Hp p f x); [by eapply resolve_name_fields|done|].
  apply list_elem_of_fmap. by exists (p, v).
Qed.

(** A recognized year parameter sets the range of its field. *)
Lemma build_query_year_clause sd q k v :
  NoDup (keys sd) → (k, v) ∈ sd →
  k ∈ ["marriage_year"; "birth_year"; "death_year"] →
  build_query sd = Ok q →
  ∃ r, resolve_year v = Ok r ∧
       q !! year_field k = Some (VDict [("$gte", VInt (range_min r));
                                        ("$lte", VInt (range_max r))]).
Proof.
  intros Hnd Hin Hk Hq.
  destruct (build_query_Ok _ _ Hq) as (nps & ys & q' & Hnps & Hys & _).
  assert (is_year k = true) as Hy.
  { repeat (apply elem_of_cons in Hk as [->|Hk]); [by vm_compute..|].
    by apply elem_of_nil in Hk. }
  pose proof (years_elem _ _ _ Hnd Hin Hy) as Hin'.
  destruct (resolve_years_elem _ _ _ _ Hys Hin') as (r & Hr & He).
  exists r. split; [done|].
  assert (year_field k ∉ ["tree_num"; "id"; "deceased"]) as Hyf.
  { repeat (apply elem_of_cons in Hk as [->|Hk]);
      [by apply (bool_decide_unpack _)..|by apply elem_of_nil in Hk]. }
  rewrite (build_query_lookup_ne _ _ _ _ _ Hq Hnps Hys);
    [|intros Heq; apply Hyf; rewrite Heq; by apply (bool_decide_unpack _)..].
  apply assemble_lookup_year; [|done..|].
  - rewrite (resolve_years_keys _ _ Hys). by apply years_NoDup.
  - intros [p [f x]] He'.
    destruct (resolve_names_elem_inv _ _ _ _ _ Hnps He') as (v' & Hv' & Hr').
    destruct (names_and_places_elem_inv _ _ _ Hnd Hv') as [Hnp' _].
    by eapply written_key_not_fixed, resolve_name_fields.
Qed.

Lemma existsb_elem {A} (f : A → bool) l x :
  x ∈ l → f x = true → existsb f l = true.
Proof.
  intros Hin Hx. induction l as [|y l IH]; [by apply elem_of_nil in Hin|].
  simpl. apply elem_of_cons in Hin as [<-|Hin]; [by rewrite Hx|].
  rewrite IH by done. apply orb_true_r.
Qed.

Lemma resolve_year_parses v Y F :
  parses_as_year v Y F → resolve_year v = Ok (_generate_year_range Y F).
Proof.
  unfold parses_as_year, resolve_year, list_index, int_of_str.
  destruct (Str.contains ":" v).
  - intros (y & f & -> & HY & -> & HF). simpl. rewrite HY. simpl. by rewrite HF.
  - intros [-> ->]. done.
Qed.

(** ** The claims about the query compiler *)

(** C5: whenever the parameters have a key that ends in [place] or contains
    [_year], the filter that [build_query] compiles has the clause
    [deceased == True]. *)
Theorem place_or_year_forces_deceased sd q k :
  k ∈ keys sd →
  Str.endswith "place" k || Str.contains "_year" k = true →
  build_query sd = Ok q →
  q !! "deceased" = Some (VBool true).
Proof.
  intros Hk Htest (nps & ys & q' & _ & _ & _ & ->)%build_query_Ok.
  rewrite classify_all_only_deceased.
  rewrite (existsb_elem _ _ k) by done. apply lookup_insert_eq.
Qed.

(** C7: a [first_name] parameter, whatever follows its first semicolon,
    compiles to an exact-match clause on the first-name index field
    [name_lc.0], whose value is the (lower-cased) portion of the parameter
    before the first semicolon; the modifier plays no part: [s;modifier]
    compiles as [s] for every [modifier]. *)
Theorem first_name_exact_match sd v q :
  NoDup (keys sd) → ("first_name", v) ∈ sd → build_query sd = Ok q →
  q !! "name_lc.0" = Some (VStr (Str.lower (before ";" v))) ∧
  (∀ s modifier, before ";" s = s → v = s +:+ String ";" modifier →
     q !! "name_lc.0" = Some (VStr (Str.lower s))).
Proof.
  intros Hnd Hin Hq.
  destruct (build_query_name_clause _ _ _ _ Hnd Hin eq_refl Hq)
    as (f & x & Hr & _ & Hlook).
  rewrite resolve_first_name in Hr. injection Hr as <- <-.
  rewrite search_str_of_before, before_lower in Hlook.
  split; [exact Hlook|].
  intros s modifier Hs ->. by rewrite before_append in Hlook.
Qed.

(** C3 (amended): a recognized year parameter whose value reads as ["Y"] or
    ["Y:F"] compiles to the range with [min = Y - F] and [max = Y + F]
    ([F = 0] without a colon), which is the range clause of its field in the
    filter; [min <= max] holds when the fudge factor is not negative. *)
Theorem year_range_bounds sd q k v Y F :
  NoDup (keys sd) → (k, v) ∈ sd →
  k ∈ ["marriage_year"; "birth_year"; "death_year"] →
  parses_as_year v Y F → build_query sd = Ok q →
  resolve_year v = Ok {| range_min := Y - F; range_max := Y + F |} ∧
  q !! year_field k = Some (VDict [("$gte", VInt (Y - F));
                                   ("$lte", VInt (Y + F))]) ∧
  (0 ≤ F → Y - F ≤ Y + F).
Proof.
  intros Hnd Hin Hk Hparse Hq.
  pose proof (resolve_year_parses _ _ _ Hparse) as Hr.
  destruct (build_query_year_clause _ _ _ _ Hnd Hin Hk Hq) as (r & Hr' & Hlook).
  rewrite Hr in Hr'. injection Hr' as <-.
  split_and!; [done|done|lia].
Qed.

(** The field of a place parameter: its base name with [S] for a phonetic
    match and [_lc] otherwise. *)
Lemma resolve_place_field p v f x :
  p ∈ ["place"; "birth_place"; "marriage_place"; "death_place"] →
  resolve_name p v = Ok (f, x) →
  f = (if decide (p = "place") then "filler" else place_field p) +:+
      (if bool_decide (Str.split ";" v !! 1%nat = Some "phonetic")
       then "S" else "_lc").
Proof.
  intros Hp. unfold resolve_name. rewrite split_index_0.
  unfold list_index.
  destruct (Str.split ";" v) as [|a [|b l]]; intros H;
    repeat (apply elem_of_cons in Hp as [->|Hp]);
    try (by apply elem_of_nil in Hp); simpl in H; simplify_eq/=; try done;
    destruct (decide (b = "prefix")) as [->|];
    try (destruct (re_compile _); simplify_eq/=; done);
    destruct (decide (b = "phonetic")) as [->|]; simplify_eq/=;
    rewrite ?bool_decide_true by done;
    rewrite ?bool_decide_false by congruence; done.
Qed.

(** C6: a [place] parameter compiles to a disjunction over exactly the three
    fields [BIRT_PLAC], [MARR_PLAC] and [DEAT_PLAC], each with the suffix [S]
    when the match is phonetic and [_lc] otherwise; a [birth_place],
    [marriage_place] or [death_place] parameter sets a clause on its own
    field, and no clause appears on the field of a place parameter that was
    not supplied. *)
Theorem place_clauses sd q :
  NoDup (keys sd) → build_query sd = Ok q →
  (∀ v, ("place", v) ∈ sd →
     ∃ f x, resolve_name "place" (Str.lower v) = Ok (f, x) ∧
       q !! "$or" =
       Some (VList
         [VDict [("BIRT_PLAC" +:+ (if is_phonetic v then "S" else "_lc"), x)];
          VDict [("MARR_PLAC" +:+ (if is_phonetic v then "S" else "_lc"), x)];
          VDict [("DEAT_PLAC" +:+ (if is_phonetic v then "S" else "_lc"), x)]]))
  ∧
  (∀ p v, p ∈ ["birth_place"; "marriage_place"; "death_place"] → (p, v) ∈ sd →
     ∃ x, resolve_name p (Str.lower v) =
            Ok (place_field p +:+ (if is_phonetic v then "S" else "_lc"), x) ∧
          q !! (place_field p +:+ (if is_phonetic v then "S" else "_lc")) =
            Some x)
  ∧
  (∀ p, p ∈ ["birth_place"; "marriage_place"; "death_place"] → p ∉ keys sd →
     q !! (place_field p +:+ "_lc") = None ∧
     q !! (place_field p +:+ "S") = None)
  ∧
  ("place" ∉ keys sd → q !! "$or" = None).
Proof.
  intros Hnd Hq. split_and!.
  - intros v Hin.
    destruct (build_query_name_clause _ _ _ _ Hnd Hin eq_refl Hq)
      as (f & x & Hr & _ & Hlook).
    exists f, x. split; [done|].
    assert ("place" ∈ ["place"; "birth_place"; "marriage_place"; "death_place"])
      as Hp by left.
    pose proof (resolve_place_field _ _ _ _ Hp Hr) as Hf.
    unfold written_key, written_value in Hlook. cbn [fst snd] in Hlook.
    unfold is_phonetic. subst f. destruct (bool_decide _); exact Hlook.
  - intros p v Hp Hin.
    assert (p ∈ ["place"; "birth_place"; "marriage_place"; "death_place"])
      as Hp' by by right.
    assert (is_name_or_place p = true ∧ p ≠ "place") as [Hnp Hne].
    { repeat (apply elem_of_cons in Hp as [->|Hp]); [done..|].
      by apply elem_of_nil in Hp. }
    destruct (build_query_name_clause _ _ _ _ Hnd Hin Hnp Hq)
      as (f & x & Hr & _ & Hlook).
    pose proof (resolve_place_field _ _ _ _ Hp' Hr) as Hf.
    rewrite decide_False in Hf by done. unfold is_phonetic. subst f.
    exists x. split; [exact Hr|].
    unfold written_key, written_value in Hlook. cbn [fst snd] in Hlook.
    rewrite !decide_False in Hlook by done. exact Hlook.
  - intros p Hp Hnin.
    split; apply (build_query_absent _ _ _ Hnd Hq);
      try (repeat (apply elem_of_cons in Hp as [->|Hp]);
           [by apply (bool_decide_unpack _)..|by apply elem_of_nil in Hp]);
      intros p' f x Hf Hkey;
      assert (p' = p) as -> by
        (unfold resolved_fields in Hf; unfold written_key in Hkey;
         cbn [fst snd] in Hkey;
         repeat (apply elem_of_cons in Hf as [Hf|Hf];
                 [injection Hf as -> ->|]);
         try (by apply elem_of_nil in Hf);
         repeat (apply elem_of_cons in Hp as [->|Hp]);
         try (by apply elem_of_nil in Hp); by vm_compute in Hkey);
      done.
  - intros Hnin. apply (build_query_absent _ _ _ Hnd Hq).
    + by apply (bool_decide_unpack _).
    + intros p' f x Hf Hkey.
      assert (p' = "place") as -> by
        (unfold resolved_fields in Hf; unfold written_key in Hkey;
         cbn [fst snd] in Hkey;
         repeat (apply elem_of_cons in Hf as [Hf|Hf];
                 [injection Hf as -> ->|]);
         try (by apply elem_of_nil in Hf); by vm_compute in Hkey).
      done.
Qed.

(** ** Failures of the compiler *)

Lemma for_each_Raise_uniform {A B} (f : A → result B) l e :
  (∀ x, x ∈ l → (∃ y, f x = Ok y) ∨ f x = Raise e) →
  (∃ x, x ∈ l ∧ f x = Raise e) →
  for_each f l = Raise e.
Proof.
  induction l as [|x l IH]; intros Hall (x0 & Hin & Hx0).
  - by apply elem_of_nil in Hin.
  - simpl. destruct (Hall x) as [[y Hy]|Hx]; [left| |by rewrite Hx].
    rewrite Hy, bind_Ok. rewrite IH; [done| |].
    + intros x' Hx'. apply Hall. by right.
    + apply elem_of_cons in Hin as [->|Hin]; [congruence|eauto].
Qed.

Lemma resolve_year_bare v :
  Str.contains ":" v = false →
  resolve_year v =
  match parse_int v with
  | Some Y => Ok (_generate_year_range Y 0)
  | None => abort 400 "Year must be an integer"
  end.
Proof.
  intros Hc. unfold resolve_year, int_of_str. rewrite Hc.
  by destruct (parse_int v).
Qed.

Lemma build_query_names_Raise sd e :
  resolve_names (names_and_places (classify_all sd)) = Raise e →
  build_query sd = Raise e.
Proof. intros H. by rewrite build_query_unfold, H. Qed.

Lemma build_query_years_Raise sd nps e :
  resolve_names (names_and_places (classify_all sd)) = Ok nps →
  resolve_years (years (classify_all sd)) = Raise e →
  build_query sd = Raise e.
Proof. intros H H'. by rewrite build_query_unfold, H, bind_Ok, H'. Qed.

(** C9 (amended): a year parameter given as a bare value that is not an
    integer makes the compiler fail with the 400 error whose message is
    "Year must be an integer" (not that of the [Y:F] case), and no filter is
    produced. The message is that of the whole compilation when nothing else
    fails before it: the names and places resolve and the year values with a
    colon are valid. *)
Theorem bare_year_not_integer sd k v :
  NoDup (keys sd) → (k, v) ∈ sd → is_year k = true →
  Str.contains ":" v = false → parse_int v = None →
  resolve_year v = abort 400 "Year must be an integer" ∧
  (∀ q, build_query sd ≠ Ok q) ∧
  ((∃ nps, resolve_names (names_and_places (classify_all sd)) = Ok nps) →
   (∀ k' v', (k', v') ∈ sd → is_year k' = true →
             Str.contains ":" v' = true → ∃ r, resolve_year v' = Ok r) →
   build_query sd = abort 400 "Year must be an integer").
Proof.
  intros Hnd Hin Hy Hc Hp.
  assert (resolve_year v = abort 400 "Year must be an integer") as Hr.
  { rewrite resolve_year_bare by done. by rewrite Hp. }
  pose proof (years_elem _ _ _ Hnd Hin Hy) as Hin'.
  split_and!; [done| |].
  - intros q (nps & ys & q' & _ & Hys & _)%build_query_Ok.
    destruct (resolve_years_elem _ _ _ _ Hys Hin') as (r & Hr' & _).
    rewrite Hr in Hr'. discriminate.
  - intros [nps Hnps] Hcolon. apply (build_query_years_Raise _ nps); [done|].
    apply for_each_Raise_uniform.
    + intros [k' v'] Hkv'. rewrite classify_all_years in Hkv' by done.
      apply list_elem_of_filter in Hkv' as [Hy' Hkv']. simpl in Hy'.
      apply Is_true_true in Hy'.
      destruct (Str.contains ":" v') eqn:Hc'.
      * left. destruct (Hcolon _ _ Hkv' Hy' Hc') as [r ->]. eauto.
      * rewrite resolve_year_bare by done.
        destruct (parse_int v'); [left; eauto | by right].
    + exists (k, v). split; [done|]. by rewrite Hr.
Qed.

(** ** Keys that the compiler does not know *)

Lemma foldl_classify_filter b sd k :
  (∀ b v, classify b (k, v) = b) →
  foldl classify b sd = foldl classify b (filter (λ kv, kv.1 ≠ k) sd).
Proof.
  intros Hk. revert b. induction sd as [|[k' v'] sd IH]; intros b; [done|].
  rewrite filter_cons. cbn [foldl fst].
  destruct (decide (k' ≠ k)) as [Hne|Heq].
  - cbn [foldl]. apply IH.
  - apply dec_stable in Heq as ->. rewrite Hk. apply IH.
Qed.

Lemma dict_get_filter_ne {V} (d : list (string * V)) k k' :
  k' ≠ k → dict_get (filter (λ kv, kv.1 ≠ k) d) k' = dict_get d k'.
Proof.
  intros Hne. induction d as [|[k0 v0] d IH]; [done|].
  rewrite filter_cons. cbn [fst dict_get].
  destruct (decide (k0 ≠ k)) as [H0|H0].
  - cbn [dict_get]. by rewrite IH.
  - apply dec_stable in H0 as ->. by rewrite decide_False.
Qed.

Lemma resolve_name_unknown p v :
  dict_get ARGS_TO_INDEX p = None → resolve_name p v = Raise (KeyError p).
Proof. intros H. unfold resolve_name, dict_index. by rewrite H. Qed.

(** A key that no branch of the compiler takes does not change its result. *)
Lemma build_query_ignores sd k :
  is_name_or_place k = false → Str.contains "_year" k = false →
  k ∉ ["sex"; "individual_id"; "tree_number"] →
  build_query sd = build_query (filter (λ kv, kv.1 ≠ k) sd).
Proof.
  intros Hnp Hy Hk.
  assert (k ≠ "sex" ∧ k ≠ "individual_id" ∧ k ≠ "tree_number")
    as (Hk1 & Hk2 & Hk3).
  { split_and!; intros ->; apply Hk; by apply (bool_decide_unpack _). }
  rewrite !build_query_unfold. unfold classify_all.
  rewrite <- (foldl_classify_filter _ _ k)
    by (intros; by apply classify_ignored).
  unfold add_tree_number. by rewrite dict_get_filter_ne.
Qed.

(** C2 (amended): a key that no branch of the compiler takes (it neither
    ends in [name] or [place] nor contains [_year], and is not [sex],
    [individual_id] or [tree_number]) is ignored: the result is the one
    without the key. A key that ends in [name] or [place] and has no
    [ARGS_TO_INDEX] entry is not ignored: no filter is produced, and
    [build_query] raises [KeyError] for it when the other names and places
    resolve. *)
Theorem unrecognized_key sd k v :
  NoDup (keys sd) → (k, v) ∈ sd →
  (is_name_or_place k = false → Str.contains "_year" k = false →
   k ∉ ["sex"; "individual_id"; "tree_number"] →
   build_query sd = build_query (filter (λ kv, kv.1 ≠ k) sd))
  ∧
  (is_name_or_place k = true → dict_get ARGS_TO_INDEX k = None →
   (∀ q, build_query sd ≠ Ok q) ∧
   ((∀ k' v', (k', v') ∈ sd → k' ≠ k → is_name_or_place k' = true →
              ∃ r, resolve_name k' (Str.lower v') = Ok r) →
    build_query sd = Raise (KeyError k))).
Proof.
  intros Hnd Hin. split.
  - apply build_query_ignores.
  - intros Hnp Hnone.
    pose proof (names_and_places_elem _ _ _ Hnd Hin Hnp) as Hin'.
    pose proof (resolve_name_unknown k (Str.lower v) Hnone) as Hr.
    split.
    + intros q (nps & ys & q' & Hnps & _)%build_query_Ok.
      destruct (resolve_names_elem _ _ _ _ Hnps Hin') as (f & x & Hr' & _).
      rewrite Hr in Hr'. discriminate.
    + intros Hothers. apply build_query_names_Raise.
      apply for_each_Raise_uniform.
      * intros [k' v'] Hkv'.
        destruct (names_and_places_elem_inv _ _ _ Hnd Hkv')
          as (Hnp' & v0 & Hv0 & ->).
        destruct (decide (k' = k)) as [->|Hne].
        -- right. by rewrite resolve_name_unknown.
        -- left. destruct (Hothers _ _ Hv0 Hne Hnp') as [r ->]. eauto.
      * exists (k, Str.lower v). split; [done|]. by rewrite Hr.
Qed.

(** ** [sex], [individual_id] and [tree_number] *)

Lemma classify_sex b k v :
  sex (classify b (k, v)) =
  if decide (k = "sex")
  then if bool_decide (Str.lower v ∈ ["m"; "f"]) then Some (Str.upper v)
       else sex b
  else sex b.
Proof.
  unfold classify. destruct (decide (k = "sex")) as [->|Hne].
  - simpl. by case_bool_decide.
  - destruct (Str.endswith "name" k), (Str.endswith "place" k),
      (Str.contains "_year" k); simpl; try done;
      repeat (case_decide || case_bool_decide); done.
Qed.

Lemma classify_individual_id b k v :
  individual_id (classify b (k, v)) =
  if decide (k = "individual_id") then Some v else individual_id b.
Proof.
  unfold classify. destruct (decide (k = "individual_id")) as [->|Hne].
  - done.
  - destruct (Str.endswith "name" k), (Str.endswith "place" k),
      (Str.contains "_year" k); simpl; try done;
      repeat (case_decide || case_bool_decide); done.
Qed.

Lemma foldl_classify_sex sd b :
  NoDup (keys sd) →
  sex (foldl classify b sd) =
  match dict_get sd "sex" with
  | Some v => if bool_decide (Str.lower v ∈ ["m"; "f"])
              then Some (Str.upper v) else sex b
  | None => sex b
  end.
Proof.
  revert b. induction sd as [|[k v] sd IH]; intros b Hnd; [done|].
  change (keys ((k, v) :: sd)) with (k :: keys sd) in Hnd.
  apply NoDup_cons in Hnd as [Hk Hnd].
  cbn [foldl dict_get]. rewrite IH, classify_sex by done.
  destruct (decide (k = "sex")) as [->|Hne]; [|done].
  apply dict_get_None in Hk. by rewrite Hk.
Qed.

Lemma foldl_classify_individual_id sd b :
  NoDup (keys sd) →
  individual_id (foldl classify b sd) =
  match dict_get sd "individual_id" with
  | Some i => Some i
  | None => individual_id b
  end.
Proof.
  revert b. induction sd as [|[k v] sd IH]; intros b Hnd; [done|].
  change (keys ((k, v) :: sd)) with (k :: keys sd) in Hnd.
  apply NoDup_cons in Hnd as [Hk Hnd].
  cbn [foldl dict_get]. rewrite IH, classify_individual_id by done.
  destruct (decide (k = "individual_id")) as [->|Hne]; [|done].
  apply dict_get_None in Hk. by rewrite Hk.
Qed.

Lemma upper_truthy v :
  Str.lower v ∈ ["m"; "f"] → truthy (VStr (Str.upper v)) = true.
Proof.
  destruct v as [|c v]; [|done]. intros H.
  repeat (apply elem_of_cons in H as [H|H]; [discriminate|]).
  by apply elem_of_nil in H.
Qed.

Lemma assemble_lookup_sex b ys nps s :
  sex b = Some s → truthy (VStr s) = true →
  (∀ e, e ∈ nps → written_key e ∉ fixed_keys) →
  assemble b ys nps !! "sex" = Some (VStr s).
Proof.
  intros Hs Ht Hnps. unfold assemble. rewrite Hs, Ht.
  rewrite foldl_add_name_lookup_ne; [apply lookup_insert_eq|].
  intros e He Heq. apply (Hnps e He). rewrite Heq.
  by apply (bool_decide_unpack _).
Qed.

(** A valid [sex] parameter sets the clause on [sex]. *)
Lemma build_query_sex_clause sd q v :
  NoDup (keys sd) → ("sex", v) ∈ sd → Str.lower v ∈ ["m"; "f"] →
  build_query sd = Ok q → q !! "sex" = Some (VStr (Str.upper v)).
Proof.
  intros Hnd Hin Hv Hq.
  destruct (build_query_Ok _ _ Hq) as (nps & ys & q' & Hnps & Hys & _).
  rewrite (build_query_lookup_ne _ _ _ _ _ Hq Hnps Hys) by done.
  apply assemble_lookup_sex.
  - unfold classify_all. rewrite foldl_classify_sex by done.
    rewrite (dict_get_elem _ _ _ Hnd Hin). by rewrite bool_decide_true.
  - by apply upper_truthy.
  - intros [p [f x]] He'.
    destruct (resolve_names_elem_inv _ _ _ _ _ Hnps He') as (v' & Hv' & Hr').
    destruct (names_and_places_elem_inv _ _ _ Hnd Hv') as [Hnp' _].
    by eapply written_key_not_fixed, resolve_name_fields.
Qed.

Lemma add_tree_number_Ok sd i q t n :
  dict_get sd "tree_number" = Some t → parse_int t = Some n →
  add_tree_number sd i q =
  Ok (match i with
      | Some i => if truthy (VStr i) then <["id" := VStr i]> (<["tree_num" := VInt n]> q)
                  else <["tree_num" := VInt n]> q
      | None => <["tree_num" := VInt n]> q
      end).
Proof.
  intros Ht Hn. unfold add_tree_number, int_of_str. rewrite Ht, Hn.
  destruct i as [i|]; [|done]. by destruct (truthy (VStr i)).
Qed.

(** C1 (amended): with a [tree_number] parameter of integer value the
    filter has the [tree_num] equality clause and, when a non-empty
    [individual_id] comes with it, the [id] equality clause. Without an
    [individual_id], the clauses built from the name, place, year and sex
    parameters of the same call are all kept beside [tree_num]. *)
Theorem tree_number_clauses sd q t n :
  NoDup (keys sd) → ("tree_number", t) ∈ sd → parse_int t = Some n →
  build_query sd = Ok q →
  q !! "tree_num" = Some (VInt n) ∧
  (∀ i, ("individual_id", i) ∈ sd → i ≠ "" → q !! "id" = Some (VStr i)) ∧
  ("individual_id" ∉ keys sd →
   (∀ p v, (p, v) ∈ sd → is_name_or_place p = true →
      ∃ f x, resolve_name p (Str.lower v) = Ok (f, x) ∧
             q !! written_key (p, (f, x)) =
             Some (written_value (p, (f, x)))) ∧
   (∀ k v, (k, v) ∈ sd → k ∈ ["marriage_year"; "birth_year"; "death_year"] →
      ∃ r, resolve_year v = Ok r ∧
           q !! year_field k =
           Some (VDict [("$gte", VInt (range_min r));
                        ("$lte", VInt (range_max r))])) ∧
   (∀ v, ("sex", v) ∈ sd → Str.lower v ∈ ["m"; "f"] →
      q !! "sex" = Some (VStr (Str.upper v)))).
Proof.
  intros Hnd Hin Hn Hq.
  pose proof Hq as Hq0.
  destruct (build_query_Ok _ _ Hq) as (nps & ys & q' & Hnps & Hys & Hq' & ->).
  rewrite (add_tree_number_Ok _ _ _ t n) in Hq'
    by (done || by apply dict_get_elem).
  injection Hq' as <-. clear Hq. rename Hq0 into Hq. split_and!.
  - destruct (only_deceased (classify_all sd));
      destruct (individual_id (classify_all sd)) as [[|c i]|];
      cbn [truthy negb String.eqb];
      rewrite ?lookup_insert_ne by done; apply lookup_insert_eq.
  - intros i Hi Hne.
    assert (individual_id (classify_all sd) = Some i) as ->.
    { unfold classify_all. rewrite foldl_classify_individual_id by done.
      by rewrite (dict_get_elem _ _ _ Hnd Hi). }
    destruct i as [|c i]; [done|]. cbn [truthy negb String.eqb].
    destruct (only_deceased (classify_all sd));
      rewrite ?lookup_insert_ne by done; apply lookup_insert_eq.
  - intros _. split_and!.
    + intros p v Hp Hnp.
      destruct (build_query_name_clause _ _ _ _ Hnd Hp Hnp Hq)
        as (f & x & Hr & _ & Hlook). eauto.
    + intros k v Hk Hk'. by apply (build_query_year_clause sd).
    + intros v Hv Hv'. by apply (build_query_sex_clause sd).
Qed.

(** ** The result sanitizer *)

Lemma translate_lookup_ne person names k :
  k ≠ names.1 → k ≠ names.2 → translate person names !! k = person !! k.
Proof.
  destruct names as [db_key api_key]. simpl. intros H1 H2.
  destruct (person !! db_key); [|done].
  by rewrite lookup_insert_ne, lookup_delete_ne.
Qed.

Lemma foldl_translate_lookup_ne names person k :
  k ∉ names.*1 → k ∉ names.*2 →
  foldl translate person names !! k = person !! k.
Proof.
  revert person. induction names as [|n names IH]; intros person H1 H2; [done|].
  rewrite fmap_cons in H1, H2.
  apply not_elem_of_cons in H1 as [H1 H1'], H2 as [H2 H2'].
  cbn [foldl]. rewrite IH by done. by apply translate_lookup_ne.
Qed.

(** Dropping [_id] and translating the gedcom names leaves [deceased] and
    [birth_year] as they were. *)
Lemma translated_get person k :
  k ∈ ["deceased"; "birth_year"] →
  person_get (foldl translate (delete "_id" person) gedcom_names) k =
  person_get person k.
Proof.
  intros Hk. unfold person_get.
  rewrite foldl_translate_lookup_ne, lookup_delete_ne; [done|..];
    repeat (apply elem_of_cons in Hk as [->|Hk]);
    try (by apply elem_of_nil in Hk);
    first [done | by apply (bool_decide_unpack _)].
Qed.

(** C4: for a record that the living-person predicate accepts, every key of
    the sanitized record is in [LIVING_PERSON_WHITELISTED_KEYS]. *)
Theorem living_person_whitelisted person k :
  is_living_person (person_get person "deceased")
                   (person_get person "birth_year") = true →
  is_Some (clean_person person !! k) →
  k ∈ LIVING_PERSON_WHITELISTED_KEYS.
Proof.
  intros Hliving [v Hv]. unfold clean_person in Hv.
  rewrite !translated_get in Hv
    by (by apply (bool_decide_unpack _)).
  rewrite Hliving in Hv.
  by apply map_lookup_filter_Some in Hv as [_ Hk].
Qed.

(** ** The search executor *)

Lemma first_if_sequence_falsy x :
  falsy_argument x → ∃ y, first_if_sequence x = Ok y ∧ truthy y = false.
Proof.
  destruct x as [| | | | |[|v l]|]; simpl; try done; intros H; eauto.
Qed.

Lemma int_or_default_falsy default x :
  truthy x = false → int_or_default default x = Ok default.
Proof. intros H. unfold int_or_default. by rewrite H. Qed.

(** C8 (amended): when [max_results] is left out or falsy, the page that
    [fsearch] returns is made of the first [MAX_RESULTS = 30] records of the
    cursor (after the [start] records skipped), sanitized: it has at most 30
    records. *)
Theorem default_page_size max_results db max_count_results kwargs total results :
  falsy_argument max_results →
  fsearch max_results db max_count_results kwargs = Ok (total, results) →
  (length results ≤ 30)%nat ∧
  ∃ search_dict search_query c,
    build_search_dict kwargs = Ok search_dict ∧
    build_query search_dict = Ok search_query ∧
    matched c =
      find_docs (match db with
                 | Some db => db "persons"
                 | None => current_app_data_db "persons"
                 end) search_query (Some projection) ∧
    results = clean_person <$> take 30 (drop (cursor_skip c) (matched c)).
Proof.
  intros (mr & Hmr & Hfalsy)%first_if_sequence_falsy H. unfold fsearch in H.
  rewrite Hmr, bind_Ok in H.
  apply bind_Ok_inv in H as (mc0 & _ & H).
  rewrite (int_or_default_falsy MAX_RESULTS mr Hfalsy), bind_Ok in H.
  apply bind_Ok_inv in H as (mc & _ & H).
  apply bind_Ok_inv in H as (sd & Hsd & H).
  apply bind_Ok_inv in H as (q & Hq & H).
  apply bind_Ok_inv in H as (c & Hc & H).
  injection H as _ <-.
  assert (fetch (limit c MAX_RESULTS) = take 30 (drop (cursor_skip c) (matched c)))
    as Hfetch by done.
  rewrite Hfetch. split.
  - rewrite length_fmap, length_take. lia.
  - exists sd, q, c. split_and!; [done..| |done].
    destruct (dict_get sd "start") as [start|].
    + apply bind_Ok_inv in Hc as (n & _ & Hc). unfold skip in Hc.
      destruct (n <? 0); [discriminate|]. by injection Hc as <-.
    + by injection Hc as <-.
Qed.

Lemma foldl_take_first_Raise e kwargs :
  foldl take_first (Raise e) kwargs = Raise e.
Proof. induction kwargs as [|kv kwargs IH]; [done|]. apply IH. Qed.

Lemma dict_set_elem {V} (d : list (string * V)) k v k' v' :
  (k', v') ∈ dict_set d k v → (k', v') ∈ d ∨ (k', v') = (k, v).
Proof.
  induction d as [|[k0 v0] d IH]; simpl.
  - intros ->%list_elem_of_singleton. by right.
  - destruct (decide (k0 = k)) as [->|Hne].
    + intros [->|H]%elem_of_cons; [by right|]. left. by right.
    + intros [->|H]%elem_of_cons; [left; left|].
      destruct (IH H) as [H'|H']; [left; by right|by right].
Qed.

(** Every value that [build_search_dict] lets through is non-empty. *)
Lemma foldl_take_first_nonempty kwargs sd0 sd :
  (∀ k v, (k, v) ∈ sd0 → v ≠ "") →
  foldl take_first (Ok sd0) kwargs = Ok sd →
  ∀ k v, (k, v) ∈ sd → v ≠ "".
Proof.
  revert sd0. induction kwargs as [|[key value] kwargs IH]; intros sd0 H0 H.
  - by injection H as <-.
  - cbn [foldl] in H.
    destruct (take_first (Ok sd0) (key, value)) as [sd1|e] eqn:Hstep;
      [|by rewrite foldl_take_first_Raise in H].
    apply (IH sd1); [|done].
    unfold take_first in Hstep. rewrite bind_Ok in Hstep.
    destruct (list_index value 0) as [first|e]; [|discriminate].
    rewrite bind_Ok in Hstep.
    destruct first as [|c first]; [discriminate|]. injection Hstep as <-.
    intros k v [Hin| [= -> ->]]%dict_set_elem; [by eapply H0|done].
Qed.

Lemma build_search_dict_nonempty kwargs sd k v :
  build_search_dict kwargs = Ok sd → (k, v) ∈ sd → v ≠ "".
Proof.
  intros H. eapply foldl_take_first_nonempty; [|exact H].
  intros ? ? Hin. by apply elem_of_nil in Hin.
Qed.

(** C10: a [start] parameter that is not an integer makes [fsearch] raise
    the [ValueError] of [int()], not the 400 error of [abort]. Nothing
    checks it before: [build_search_dict] only requires it to be non-empty
    and [build_query] does not read it. *)
Theorem start_not_integer max_results db max_count_results kwargs
    mr0 mc0 mr mc sd q v :
  first_if_sequence max_results = Ok mr0 →
  first_if_sequence max_count_results = Ok mc0 →
  int_or_default MAX_RESULTS mr0 = Ok mr →
  int_or_default MAX_COUNT_RESULTS mc0 = Ok mc →
  build_search_dict kwargs = Ok sd → build_query sd = Ok q →
  dict_get sd "start" = Some v → parse_int v = None →
  fsearch max_results db max_count_results kwargs =
  Raise (ValueError ("invalid literal for int() with base 10: " +:+ v)) ∧
  v ≠ "" ∧
  build_query (filter (λ kv, kv.1 ≠ "start") sd) = Ok q.
Proof.
  intros Hmr0 Hmc0 Hmr Hmc Hsd Hq Hstart Hv. split_and!.
  - unfold fsearch.
    rewrite Hmr0, bind_Ok, Hmc0, bind_Ok, Hmr, bind_Ok, Hmc, bind_Ok.
    rewrite Hsd, bind_Ok, Hq, bind_Ok, Hstart.
    unfold int_of_str. by rewrite Hv.
  - eapply build_search_dict_nonempty; [exact Hsd|].
    by apply dict_get_Some_elem.
  - rewrite <- Hq. symmetry. apply build_query_ignores; [done..|].
    by apply (bool_decide_unpack _).
Qed.

(** ** More about the compiled filter *)

Lemma foldl_classify_names_keys sd b k v :
  (∀ k v, (k, v) ∈ names_and_places b → is_name_or_place k = true) →
  (k, v) ∈ names_and_places (foldl classify b sd) →
  is_name_or_place k = true.
Proof.
  revert b. induction sd as [|[k0 v0] sd IH]; intros b Hb; cbn [foldl].
  - apply Hb.
  - apply IH. intros k' v'. rewrite classify_names.
    destruct (is_name_or_place k0) eqn:Hnp; [|apply Hb].
    intros [Hin|[= -> ->]]%dict_set_elem; [by eapply Hb|done].
Qed.

(** Whatever the parameters, the entries of the resolved [names_and_places]
    set none of the fixed keys. *)
Lemma resolved_names_fields sd nps p f x :
  resolve_names (names_and_places (classify_all sd)) = Ok nps →
  (p, (f, x)) ∈ nps → (p, f) ∈ resolved_fields.
Proof.
  intros Hnps He.
  destruct (resolve_names_elem_inv _ _ _ _ _ Hnps He) as (v & Hv & Hr).
  eapply resolve_name_fields; [exact Hr|].
  eapply foldl_classify_names_keys; [|exact Hv].
  intros ? ? Hin. by apply elem_of_nil in Hin.
Qed.

Lemma resolved_names_not_fixed sd nps e :
  resolve_names (names_and_places (classify_all sd)) = Ok nps →
  e ∈ nps → written_key e ∉ fixed_keys.
Proof.
  destruct e as [p [f x]]. intros Hnps He.
  eapply written_key_not_fixed, resolved_names_fields; eauto.
Qed.

Lemma assemble_lookup_base b ys nps k :
  (∀ e, e ∈ nps → written_key e ≠ k) →
  k ∉ ["birth_year"; "death_year"; "marriage_years"] → k ≠ "sex" →
  assemble b ys nps !! k =
  ({["archived" := VDict [("$exists", VBool false)]]} : gmap string pyval) !! k.
Proof.
  intros Hnps Hy Hsex. unfold assemble.
  rewrite foldl_add_name_lookup_ne by done.
  destruct (sex b) as [s|]; [destruct (truthy (VStr s))|];
    rewrite ?lookup_insert_ne by done; by apply foldl_add_year_lookup_ne.
Qed.

Lemma fixed_key_not_written sd nps k :
  resolve_names (names_and_places (classify_all sd)) = Ok nps →
  k ∈ fixed_keys → ∀ e, e ∈ nps → written_key e ≠ k.
Proof.
  intros Hnps Hk e He <-. by eapply resolved_names_not_fixed.
Qed.

(** X1: every compiled filter has the clause that [archived] does not exist. *)
Theorem archived_clause_always sd q :
  build_query sd = Ok q →
  q !! "archived" = Some (VDict [("$exists", VBool false)]).
Proof.
  intros Hq.
  destruct (build_query_Ok _ _ Hq) as (nps & ys & q' & Hnps & Hys & _).
  rewrite (build_query_lookup_ne _ _ _ _ _ Hq Hnps Hys) by done.
  rewrite assemble_lookup_base; [done| |by apply (bool_decide_unpack _)|done].
  apply (fixed_key_not_written sd); [done|by apply (bool_decide_unpack _)].
Qed.

(** X2: the [deceased] clause is there exactly when some key ends in [place] or
    contains [_year]; there is no other way to get it, and no way to ask
    for the living only. *)
Theorem deceased_clause_iff sd q :
  build_query sd = Ok q →
  q !! "deceased" =
  if existsb (λ k, Str.endswith "place" k || Str.contains "_year" k) (keys sd)
  then Some (VBool true) else None.
Proof.
  intros Hq.
  destruct (build_query_Ok _ _ Hq) as (nps & ys & q' & Hnps & Hys & Hq' & ->).
  rewrite classify_all_only_deceased.
  destruct (existsb _ _); [apply lookup_insert_eq|].
  rewrite (add_tree_number_lookup_ne _ _ _ _ _ Hq') by done.
  rewrite assemble_lookup_base; [done| |by apply (bool_decide_unpack _)|done].
  apply (fixed_key_not_written sd); [done|by apply (bool_decide_unpack _)].
Qed.

(** X3: the [sex] clause: [m] or [f] in either case gives the upper-case
    letter; any other value is dropped without an error, and so the filter
    has no clause on [sex]. *)
Theorem sex_clause sd q :
  NoDup (keys sd) → build_query sd = Ok q →
  q !! "sex" =
  match dict_get sd "sex" with
  | Some v => if bool_decide (Str.lower v ∈ ["m"; "f"])
              then Some (VStr (Str.upper v)) else None
  | None => None
  end.
Proof.
  intros Hnd Hq.
  destruct (build_query_Ok _ _ Hq) as (nps & ys & q' & Hnps & Hys & _).
  rewrite (build_query_lookup_ne _ _ _ _ _ Hq Hnps Hys) by done.
  assert (∀ e, e ∈ nps → written_key e ≠ "sex") as Hnames
    by (apply (fixed_key_not_written sd);
        [done|by apply (bool_decide_unpack _)]).
  unfold assemble. rewrite foldl_add_name_lookup_ne by done.
  unfold classify_all. rewrite foldl_classify_sex by done. cbn [sex no_buckets].
  assert (foldl add_year
            ({["archived" := VDict [("$exists", VBool false)]]}
               : gmap string pyval) ys !! "sex" = None) as Hnone.
  { rewrite foldl_add_year_lookup_ne; [done|by apply (bool_decide_unpack _)]. }
  destruct (dict_get sd "sex") as [v|]; [|done].
  case_bool_decide as Hv; [|done].
  rewrite upper_truthy by done. apply lookup_insert_eq.
Qed.

Lemma assemble_sex_ext b b' ys nps :
  sex b = sex b' → assemble b ys nps = assemble b' ys nps.
Proof. intros H. unfold assemble. by rewrite H. Qed.

Lemma resolve_years_filter (P : string → Prop) `{!∀ k, Decision (P k)} ys rs :
  resolve_years ys = Ok rs →
  resolve_years (filter (λ kv, P kv.1) ys) = Ok (filter (λ kr, P kr.1) rs).
Proof.
  revert rs. induction ys as [|[k v] ys IH]; intros rs Hrs.
  - by injection Hrs as <-.
  - unfold resolve_years in Hrs. cbn [for_each] in Hrs.
    apply bind_Ok_inv in Hrs as ([k' r] & Hkr & Hrs).
    apply bind_Ok_inv in Hrs as (rs' & Hrs' & Hrs). injection Hrs as <-.
    apply bind_Ok_inv in Hkr as (r' & Hr' & Hkr). injection Hkr as <- <-.
    rewrite !filter_cons. cbn [fst].
    destruct (decide (P k)); [|by apply IH].
    unfold resolve_years. cbn [for_each]. rewrite Hr', !bind_Ok.
    fold (resolve_years (filter (λ kv, P kv.1) ys)).
    by rewrite (IH rs').
Qed.

Lemma foldl_add_year_filter q rs k :
  k ∉ ["marriage_year"; "birth_year"; "death_year"] →
  foldl add_year q (filter (λ e, e.1 ≠ k) rs) = foldl add_year q rs.
Proof.
  intros Hk. revert q. induction rs as [|[item range] rs IH]; intros q; [done|].
  rewrite filter_cons. cbn [fst foldl].
  destruct (decide (item ≠ k)) as [Hne|Heq]; [by cbn [foldl]|].
  apply dec_stable in Heq as ->. rewrite IH. f_equal.
  unfold add_year. by rewrite bool_decide_false.
Qed.

Lemma filter_NoDup_keys {V} (d : list (string * V)) k :
  NoDup (keys d) → NoDup (keys (filter (λ kv, kv.1 ≠ k) d)).
Proof.
  intros Hnd. unfold keys in *. eapply sublist_NoDup; [exact Hnd|].
  apply fmap_sublist, sublist_filter.
Qed.

(** The locals of [build_query] without a key that is a year key only. *)
Lemma classify_all_without_year sd k :
  NoDup (keys sd) → is_year k = true →
  let b := classify_all sd in
  let b' := classify_all (filter (λ kv, kv.1 ≠ k) sd) in
  names_and_places b' = names_and_places b ∧
  years b' = filter (λ kv, kv.1 ≠ k) (years b) ∧
  sex b' = sex b ∧ individual_id b' = individual_id b.
Proof.
  forget_collaborators. intros Hnd Hy. cbn zeta.
  pose proof (filter_NoDup_keys _ k Hnd) as Hnd'.
  assert (is_name_or_place k = false ∧ Str.contains "_year" k = true)
    as [Hnp Hc].
  { unfold is_year in Hy. apply andb_true_iff in Hy as [Hnp Hc].
    split; [by apply negb_true_iff|done]. }
  assert (k ≠ "sex" ∧ k ≠ "individual_id") as [Hsex Hid]
    by (split; intros ->; discriminate Hc).
  split_and!.
  - rewrite !classify_all_names by done. f_equal.
    rewrite list_filter_filter. apply list_filter_iff.
    intros [k0 v0]. simpl. split; [tauto|]. intros H0. split; [done|].
    intros ->. rewrite Hnp in H0. done.
  - rewrite !classify_all_years by done.
    rewrite !list_filter_filter. apply list_filter_iff.
    intros [k0 v0]. simpl. tauto.
  - unfold classify_all. rewrite !foldl_classify_sex by done.
    by rewrite dict_get_filter_ne.
  - unfold classify_all. rewrite !foldl_classify_individual_id by done.
    by rewrite dict_get_filter_ne.
Qed.

(** X4: a key that contains [_year] and is not one of the three year parameters
    is checked like them and restricts the search to the deceased, but puts
    no range in the filter: the filter is the one without the key, with the
    [deceased] clause. *)
Theorem unknown_year_key sd q k v :
  NoDup (keys sd) → (k, v) ∈ sd → is_year k = true →
  k ∉ ["marriage_year"; "birth_year"; "death_year"] →
  build_query sd = Ok q →
  ∃ q0, build_query (filter (λ kv, kv.1 ≠ k) sd) = Ok q0 ∧
        q = <["deceased" := VBool true]> q0.
Proof.
  intros Hnd Hin Hy Hk Hq.
  destruct (build_query_Ok _ _ Hq) as (nps & ys & q' & Hnps & Hys & Hq' & ->).
  destruct (classify_all_without_year sd k Hnd Hy) as (Hn & Hyears & Hs & Hi).
  assert (only_deceased (classify_all sd) = true) as ->.
  { rewrite classify_all_only_deceased. apply (existsb_elem _ _ k).
    - apply list_elem_of_fmap. by exists (k, v).
    - unfold is_year in Hy. apply andb_true_iff in Hy as [_ ->].
      apply orb_true_r. }
  assert (k ≠ "tree_number") as Htree.
  { intros ->. discriminate Hy. }
  pose proof (resolve_years_filter (λ k0, k0 ≠ k) _ _ Hys) as Hys'.
  cbn beta in Hys'.
  rewrite build_query_unfold, Hn, Hnps, bind_Ok, Hyears, Hys', bind_Ok.
  rewrite (assemble_sex_ext _ (classify_all sd)) by done.
  unfold assemble at 1. rewrite foldl_add_year_filter by done.
  fold (assemble (classify_all sd) ys nps).
  assert (add_tree_number (filter (λ kv, kv.1 ≠ k) sd)
            (individual_id (classify_all (filter (λ kv, kv.1 ≠ k) sd)))
            (assemble (classify_all sd) ys nps) = Ok q') as ->.
  { rewrite <- Hq'. unfold add_tree_number.
    rewrite Hi, dict_get_filter_ne; [reflexivity|congruence]. }
  rewrite bind_Ok. eexists. split; [reflexivity|].
  destruct (only_deceased (classify_all (filter (λ kv, kv.1 ≠ k) sd)));
    [|done].
  by rewrite insert_insert_eq.
Qed.

(** ** Parameters that change nothing *)

(** [build_query] reads its parameters through the locals of its first loop
    and the [tree_number] test. *)
Lemma build_query_congr sd sd' :
  names_and_places (classify_all sd) = names_and_places (classify_all sd') →
  years (classify_all sd) = years (classify_all sd') →
  sex (classify_all sd) = sex (classify_all sd') →
  only_deceased (classify_all sd) = only_deceased (classify_all sd') →
  (∀ q, add_tree_number sd (individual_id (classify_all sd)) q =
        add_tree_number sd' (individual_id (classify_all sd')) q) →
  build_query sd = build_query sd'.
Proof.
  intros Hn Hy Hs Ho Ht. rewrite !build_query_unfold, Hn, Hy, Ho.
  destruct (resolve_names _) as [nps|e]; [|done]. rewrite !bind_Ok.
  destruct (resolve_years _) as [ys|e]; [|done]. rewrite !bind_Ok.
  by rewrite Ht, (assemble_sex_ext _ (classify_all sd')).
Qed.

Lemma foldl_classify_without_id sd b b' :
  names_and_places b = names_and_places b' → years b = years b' →
  sex b = sex b' → only_deceased b = only_deceased b' →
  let c := foldl classify b sd in
  let c' := foldl classify b' (filter (λ kv, kv.1 ≠ "individual_id") sd) in
  names_and_places c = names_and_places c' ∧ years c = years c' ∧
  sex c = sex c' ∧ only_deceased c = only_deceased c'.
Proof.
  cbn zeta. revert b b'.
  induction sd as [|[k v] sd IH]; intros b b' Hn Hy Hs Ho; [done|].
  rewrite filter_cons. cbn [fst foldl].
  destruct (decide (k ≠ "individual_id")) as [Hne|Heq].
  - cbn [foldl]. apply IH.
    + by rewrite !classify_names, Hn.
    + by rewrite !classify_years, Hy.
    + by rewrite !classify_sex, Hs.
    + by rewrite !classify_only_deceased, Ho.
  - apply dec_stable in Heq as ->. apply IH.
    + by rewrite classify_names.
    + by rewrite classify_years.
    + by rewrite classify_sex.
    + by rewrite classify_only_deceased, orb_false_r.
Qed.

(** X5: without a [tree_number], an [individual_id] has no effect at all: the
    [id] clause is only set beside [tree_num]. *)
Theorem individual_id_needs_tree_number sd :
  "tree_number" ∉ keys sd →
  build_query sd =
  build_query (filter (λ kv, kv.1 ≠ "individual_id") sd).
Proof.
  intros Htree.
  destruct (foldl_classify_without_id sd no_buckets no_buckets)
    as (Hn & Hy & Hs & Ho); [done..|].
  fold (classify_all sd) in Hn, Hy, Hs, Ho.
  fold (classify_all (filter (λ kv, kv.1 ≠ "individual_id") sd))
    in Hn, Hy, Hs, Ho.
  apply build_query_congr; [done..|].
  intros q. unfold add_tree_number. rewrite dict_get_filter_ne by done.
  apply dict_get_None in Htree. by rewrite Htree.
Qed.

Lemma classify_lower b k v v' :
  is_name_or_place k = true → Str.lower v = Str.lower v' →
  classify b (k, v) = classify b (k, v').
Proof.
  unfold classify, is_name_or_place. intros -> Hl. by rewrite Hl.
Qed.

(** X6: the search is case insensitive: two sets of parameters that differ only
    in the case of the values of their name and place keys compile alike,
    to the same filter or to the same failure. *)
Theorem case_insensitive sd sd' :
  Forall2 (λ kv kv', kv.1 = kv'.1 ∧
                     if is_name_or_place kv.1
                     then Str.lower kv.2 = Str.lower kv'.2
                     else kv.2 = kv'.2) sd sd' →
  build_query sd = build_query sd'.
Proof.
  intros Hsd.
  assert (classify_all sd = classify_all sd') as Hb.
  { unfold classify_all. generalize no_buckets.
    induction Hsd as [|[k v] [k' v'] sd sd' [Hk Hv] _ IH]; intros b; [done|].
    simpl in Hk, Hv. subst k'. cbn [foldl].
    destruct (is_name_or_place k) eqn:Hnp.
    - rewrite (classify_lower b k v v') by done. apply IH.
    - subst v'. apply IH. }
  assert (dict_get sd "tree_number" = dict_get sd' "tree_number") as Htree.
  { clear Hb. induction Hsd as [|[k v] [k' v'] sd sd' [Hk Hv] _ IH]; [done|].
    simpl in Hk, Hv. subst k'. cbn [dict_get].
    destruct (decide (k = "tree_number")) as [->|]; [|done].
    simpl in Hv. by subst v'. }
  apply build_query_congr; rewrite ?Hb; try done.
  intros q. unfold add_tree_number. by rewrite Htree.
Qed.

(** ** Match modifiers *)

(** What a parameter other than [first_name] resolves to, by the text after
    its first semicolon. *)
Lemma resolve_name_modifier p fn v :
  dict_get ARGS_TO_INDEX p = Some fn → p ≠ "first_name" →
  resolve_name p v =
  if decide (Str.split ";" v !! 1%nat = Some "prefix") then
    q ← re_compile ("^" +:+ search_str_of v); Ok (fn, q)
  else if decide (Str.split ";" v !! 1%nat = Some "phonetic") then
    Ok (default "" (Str.split "_lc" fn !! 0%nat) +:+ "S",
        VStr (get_bhp_soundex (search_str_of v)))
  else Ok (fn, VStr (search_str_of v)).
Proof.
  intros Hfn Hp. unfold resolve_name, dict_index, search_str_of.
  rewrite Hfn. cbv beta iota. rewrite bind_Ok, !split_index_0, bind_Ok.
  rewrite decide_False by done. unfold list_index.
  destruct (Str.split ";" v) as [|a [|b l]]; simpl; [done..|].
  destruct (decide (b = "prefix")) as [->|Hpre]; [by rewrite decide_True|].
  destruct (decide (Some b = Some "prefix")) as [[= ?]|_]; [done|].
  destruct (decide (b = "phonetic")) as [->|Hpho]; [by rewrite decide_True|].
  by destruct (decide (Some b = Some "phonetic")) as [[= ?]|_].
Qed.

Lemma build_query_absent_resolved sd q k :
  NoDup (keys sd) → build_query sd = Ok q → k ∉ fixed_keys →
  (∀ p v f x, (p, v) ∈ sd → is_name_or_place p = true →
     resolve_name p (Str.lower v) = Ok (f, x) →
     written_key (p, (f, x)) ≠ k) →
  q !! k = None.
Proof.
  intros Hnd Hq Hk Hp.
  destruct (build_query_Ok _ _ Hq) as (nps & ys & q' & Hnps & Hys & _).
  rewrite (build_query_lookup_ne _ _ _ _ _ Hq Hnps Hys);
    [|intros ->; apply Hk; by apply (bool_decide_unpack _)..].
  apply assemble_lookup_None; [done|].
  intros [p [f x]] He.
  destruct (resolve_names_elem_inv _ _ _ _ _ Hnps He) as (v' & Hv' & Hr').
  destruct (names_and_places_elem_inv _ _ _ Hnd Hv') as [Hnp' (v & Hv & ->)].
  by eapply Hp.
Qed.

Lemma last_name_fields p f x :
  (p, f) ∈ resolved_fields →
  written_key (p, (f, x)) ∈ ["name_lc.1"; "nameS"] →
  p = "last_name" ∧ written_key (p, (f, x)) = f.
Proof.
  unfold resolved_fields, written_key. cbn [fst snd]. intros Hf.
  repeat (apply elem_of_cons in Hf as [Hf|Hf]; [injection Hf as -> ->|]);
    [..|by apply elem_of_nil in Hf]; intros Hk;
    first [done | exfalso; revert Hk; apply (bool_decide_unpack _);
                  vm_compute; exact I].
Qed.

(** X7: a [last_name] parameter: [s;prefix] is the regular expression [^s] on
    [name_lc.1], [s;phonetic] is the soundex code of [s] on [nameS], and [s]
    alone or with any other modifier is [s] itself on [name_lc.1]; the
    value and its modifier are read in lower case, and only one of the two
    fields gets a clause. *)
Theorem last_name_modifiers sd v q :
  NoDup (keys sd) → ("last_name", v) ∈ sd → build_query sd = Ok q →
  let s := Str.lower (before ";" v) in
  let modifier := Str.split ";" (Str.lower v) !! 1%nat in
  if decide (modifier = Some "prefix") then
    q !! "name_lc.1" = Some (VRegex ("^" +:+ s)) ∧ q !! "nameS" = None
  else if decide (modifier = Some "phonetic") then
    q !! "nameS" = Some (VStr (get_bhp_soundex s)) ∧ q !! "name_lc.1" = None
  else
    q !! "name_lc.1" = Some (VStr s) ∧ q !! "nameS" = None.
Proof.
  intros Hnd Hin Hq s modifier.
  destruct (build_query_name_clause _ _ _ _ Hnd Hin eq_refl Hq)
    as (f & x & Hr & Hf & Hlook).
  pose proof Hr as Hr0.
  rewrite (resolve_name_modifier _ "name_lc.1") in Hr by done.
  rewrite search_str_of_before, before_lower in Hr.
  fold s modifier in Hr.
  assert (∀ k, k ∈ ["name_lc.1"; "nameS"] → k ≠ f → q !! k = None) as Hother.
  { intros k Hk Hne. apply (build_query_absent_resolved sd); [done..| |].
    - repeat (apply elem_of_cons in Hk as [->|Hk]);
        [by apply (bool_decide_unpack _)..|by apply elem_of_nil in Hk].
    - intros p v0 f0 x0 Hin0 Hnp0 Hr1 Hkey. rewrite <- Hkey in Hk.
      destruct (last_name_fields _ _ _
                  (resolve_name_fields _ _ _ _ Hr1 Hnp0) Hk) as [-> Hw].
      pose proof (dict_elem_unique _ _ _ _ Hnd Hin Hin0) as <-.
      rewrite Hr0 in Hr1. injection Hr1 as <- <-. congruence. }
  unfold written_key, written_value in Hlook. cbn [fst snd] in Hlook.
  rewrite !decide_False in Hlook by done.
  destruct (decide (modifier = Some "prefix")).
  - unfold re_compile in Hr. destruct (re_wellformed _); [|discriminate].
    injection Hr as <- <-. split; [done|]. apply Hother; [|done].
    right; left.
  - destruct (decide (modifier = Some "phonetic")).
    + injection Hr as <- <-. split; [done|]. apply Hother; [left|done].
    + injection Hr as <- <-. split; [done|]. apply Hother; [|done].
      right; left.
Qed.

(** ** More on the result sanitizer *)

Lemma translate_absent person names :
  person !! names.1 = None → translate person names = person.
Proof. destruct names as [db_key api_key]. simpl. by intros ->. Qed.

Lemma foldl_translate_absent names person :
  (∀ k, k ∈ names.*1 → person !! k = None) →
  foldl translate person names = person.
Proof.
  induction names as [|n names IH]; intros H; [done|].
  cbn [foldl]. rewrite translate_absent by (apply H; left).
  apply IH. intros k Hk. apply H. by right.
Qed.

Lemma translate_lookup_db person db_key api_key :
  db_key ≠ api_key → translate person (db_key, api_key) !! db_key = None.
Proof.
  intros Hne. simpl. destruct (person !! db_key) eqn:H; [|done].
  by rewrite lookup_insert_ne, lookup_delete_eq.
Qed.

Lemma foldl_translate_lookup_None names person k :
  k ∉ names.*2 → person !! k = None ∨ k ∈ names.*1 →
  foldl translate person names !! k = None.
Proof.
  revert person.
  induction names as [|[db_key api_key] names IH]; intros person Hapi H.
  - destruct H as [H|H]; [done|by apply elem_of_nil in H].
  - rewrite fmap_cons in Hapi. apply not_elem_of_cons in Hapi as [Hne Hapi].
    cbn [foldl]. apply IH; [done|]. simpl in Hne.
    destruct (decide (k = db_key)) as [->|Hdb].
    + left. by apply translate_lookup_db.
    + destruct H as [H|H].
      * left. by rewrite translate_lookup_ne.
      * right. rewrite fmap_cons in H.
        by apply elem_of_cons in H as [H|H].
Qed.

Lemma foldl_translate_lookup_api names person db_key api_key v :
  NoDup names.*1 → NoDup names.*2 → (∀ k, k ∈ names.*1 → k ∉ names.*2) →
  (db_key, api_key) ∈ names → person !! db_key = Some v →
  foldl translate person names !! api_key = Some v.
Proof.
  revert person.
  induction names as [|[d a] names IH]; intros person Hnd1 Hnd2 Hdis Hin Hv.
  - by apply elem_of_nil in Hin.
  - rewrite fmap_cons in Hnd1, Hnd2.
    apply NoDup_cons in Hnd1 as [Hd Hnd1], Hnd2 as [Ha Hnd2].
    cbn [foldl]. simpl in Hd, Ha.
    apply elem_of_cons in Hin as [[= <- <-]|Hin].
    + rewrite foldl_translate_lookup_ne; [|intros H|done].
      * simpl. rewrite Hv. by rewrite lookup_insert_eq.
      * apply (Hdis api_key); [by right|left].
    + assert (db_key ∈ names.*1) as Hdb
        by (apply list_elem_of_fmap; by exists (db_key, api_key)).
      apply IH; [done..| |done|].
      * intros k Hk Hk'. apply (Hdis k); by right.
      * rewrite translate_lookup_ne; [done|intros ->..]; simpl; [done|].
        apply (Hdis a); [by right|left].
Qed.

Lemma translated_storage_key person k :
  k ∈ storage_keys → translated person !! k = None.
Proof.
  intros Hk. unfold translated.
  apply foldl_translate_lookup_None.
  - assert (Forall (λ k, k ∉ gedcom_names.*2) storage_keys) as Hall
      by (apply (bool_decide_unpack _); vm_compute; exact I).
    by apply (proj1 (Forall_forall _ _) Hall).
  - apply elem_of_cons in Hk as [->|Hk]; [left|by right].
    apply lookup_delete_eq.
Qed.

Lemma clean_person_translated person :
  clean_person person =
  if is_living_person (person_get person "deceased")
                      (person_get person "birth_year")
  then filter (λ kv, kv.1 ∈ LIVING_PERSON_WHITELISTED_KEYS) (translated person)
  else translated person.
Proof.
  unfold clean_person. fold (translated person). unfold translated.
  by rewrite !translated_get by (by apply (bool_decide_unpack _)).
Qed.

Lemma whitelist_lookup (m : gmap string pyval) k :
  k ∈ LIVING_PERSON_WHITELISTED_KEYS →
  filter (λ kv, kv.1 ∈ LIVING_PERSON_WHITELISTED_KEYS) m !! k = m !! k.
Proof.
  intros Hk. destruct (m !! k) as [x|] eqn:Hx.
  - by apply map_lookup_filter_Some_2.
  - apply map_lookup_filter_None_2. by left.
Qed.

Lemma whitelist_idemp (m : gmap string pyval) :
  filter (λ kv, kv.1 ∈ LIVING_PERSON_WHITELISTED_KEYS)
    (filter (λ kv, kv.1 ∈ LIVING_PERSON_WHITELISTED_KEYS) m) =
  filter (λ kv, kv.1 ∈ LIVING_PERSON_WHITELISTED_KEYS) m.
Proof.
  apply map_eq. intros i. apply option_eq. intros x.
  rewrite !map_lookup_filter_Some. forget_collaborators. tauto.
Qed.

Lemma clean_person_storage_key person k :
  k ∈ storage_keys → clean_person person !! k = None.
Proof.
  intros Hk. rewrite clean_person_translated.
  destruct (is_living_person _ _); [|by apply translated_storage_key].
  apply map_lookup_filter_None_2. left. by apply translated_storage_key.
Qed.

Lemma gedcom_names_wf :
  NoDup gedcom_names.*1 ∧ NoDup gedcom_names.*2 ∧
  (∀ k, k ∈ gedcom_names.*1 → k ∉ gedcom_names.*2) ∧ "_id" ∉ gedcom_names.*1.
Proof.
  split_and!; [by apply (bool_decide_unpack _)..| |by apply (bool_decide_unpack _)].
  apply Forall_forall. by apply (bool_decide_unpack _).
Qed.

(** X8: after [clean_person] a record has neither the key [_id] nor any of
    the gedcom keys [BIRT_PLAC], [DEAT_PLAC], [MARR_PLAC], [MARR_DATE],
    [OCCU] and [NOTE], whatever it held before and whether the person is
    living or not. *)
Theorem storage_keys_removed person :
  Forall (λ k, clean_person person !! k = None)
    ["_id"; "BIRT_PLAC"; "DEAT_PLAC"; "MARR_PLAC"; "MARR_DATE"; "OCCU"; "NOTE"].
Proof. apply Forall_forall. intros k Hk. by apply clean_person_storage_key. Qed.

(** X9: the value stored under a gedcom key is found under its API name in
    the sanitized record, replacing a value the record already had under
    that name, provided that the person is not living or the API name is
    whitelisted. *)
Theorem gedcom_value_moved person db_key api_key v :
  (db_key, api_key) ∈ gedcom_names →
  person !! db_key = Some v →
  is_living_person (person_get person "deceased")
                   (person_get person "birth_year") = false ∨
  api_key ∈ LIVING_PERSON_WHITELISTED_KEYS →
  clean_person person !! api_key = Some v.
Proof.
  intros Hin Hv Hkept.
  destruct gedcom_names_wf as (Hnd1 & Hnd2 & Hdis & Hid).
  assert (translated person !! api_key = Some v) as Ht.
  { unfold translated.
    apply (foldl_translate_lookup_api _ _ db_key); [done..|].
    rewrite lookup_delete_ne; [done|]. intros <-. apply Hid.
    apply list_elem_of_fmap. by exists ("_id", api_key). }
  rewrite clean_person_translated.
  destruct (is_living_person _ _); [|done].
  destruct Hkept as [?|Hw]; [done|].
  by rewrite whitelist_lookup.
Qed.

(** X10: a field that is neither [_id], nor a gedcom key, nor the API name
    of one, is in the sanitized record as it was in the record, provided
    that the person is not living or the field is whitelisted. *)
Theorem other_fields_kept person k :
  k ∉ storage_keys → k ∉ gedcom_names.*2 →
  is_living_person (person_get person "deceased")
                   (person_get person "birth_year") = false ∨
  k ∈ LIVING_PERSON_WHITELISTED_KEYS →
  clean_person person !! k = person !! k.
Proof.
  intros Hs Hapi Hkept. apply not_elem_of_cons in Hs as [Hid Hdb].
  assert (translated person !! k = person !! k) as Ht.
  { unfold translated. rewrite foldl_translate_lookup_ne by done.
    by rewrite lookup_delete_ne. }
  rewrite clean_person_translated.
  destruct (is_living_person _ _); [|done].
  destruct Hkept as [?|Hw]; [done|].
  by rewrite whitelist_lookup.
Qed.

(** X11: [clean_person] is idempotent: sanitizing a sanitized record
    changes nothing, whatever the living-person predicate answers on the
    fields that are left. *)
Theorem clean_person_idempotent person :
  clean_person (clean_person person) = clean_person person.
Proof.
  assert (translated (clean_person person) = clean_person person) as Ht.
  { unfold translated. rewrite delete_id.
    - apply foldl_translate_absent. intros k Hk.
      apply clean_person_storage_key. by right.
    - apply clean_person_storage_key. left. }
  rewrite (clean_person_translated (clean_person person)), Ht.
  destruct (is_living_person (person_get (clean_person person) "deceased") _)
    eqn:Hagain; [|done].
  rewrite clean_person_translated in Hagain |- *.
  destruct (is_living_person (person_get person "deceased") _) eqn:Hliving.
  - apply whitelist_idemp.
  - unfold translated in Hagain.
    rewrite !translated_get in Hagain by (by apply (bool_decide_unpack _)).
    congruence.
Qed.

(** ** More on the request arguments *)

Lemma take_first_nonempty sd key v l :
  v ≠ "" → take_first (Ok sd) (key, v :: l) = Ok (dict_set sd key v).
Proof. intros Hv. by destruct v. Qed.

Lemma foldl_take_first_fresh kwargs sd0 :
  NoDup (keys sd0 ++ keys kwargs) →
  Forall (λ kv, ∃ v l, kv.2 = v :: l ∧ v ≠ "") kwargs →
  foldl take_first (Ok sd0) kwargs =
  Ok (sd0 ++ (prod_map id (λ value, default "" (head value)) <$> kwargs)).
Proof.
  revert sd0. induction kwargs as [|[key value] kwargs IH]; intros sd0 Hnd Hall.
  - by rewrite app_nil_r.
  - apply Forall_cons in Hall as [(v & l & Hvalue & Hv) Hall].
    simpl in Hvalue. subst value. cbn [foldl].
    rewrite take_first_nonempty by done.
    change (keys ((key, v :: l) :: kwargs)) with (key :: keys kwargs) in Hnd.
    rewrite dict_set_fresh.
    + rewrite IH; [by rewrite <- app_assoc| |done].
      unfold keys in *. rewrite fmap_app, <- app_assoc. exact Hnd.
    + apply NoDup_app in Hnd as (_ & Hdis & _). intros Hk.
      apply (Hdis _ Hk). left.
Qed.

Lemma foldl_take_first_valid kwargs sd0 :
  Forall (λ kv, ∃ v l, kv.2 = v :: l ∧ v ≠ "") kwargs →
  ∃ sd, foldl take_first (Ok sd0) kwargs = Ok sd.
Proof.
  revert sd0. induction kwargs as [|[key value] kwargs IH]; intros sd0 Hall.
  - by exists sd0.
  - apply Forall_cons in Hall as [(v & l & Hvalue & Hv) Hall].
    simpl in Hvalue. subst value. cbn [foldl].
    rewrite take_first_nonempty by done. by apply IH.
Qed.

(** X12: when every argument of the request has a first value and that
    value is not empty, [build_search_dict] succeeds and returns the
    arguments in their order, each with its first value; the other values
    are dropped. *)
Theorem first_values_taken kwargs :
  NoDup (keys kwargs) →
  Forall (λ kv, ∃ v l, kv.2 = v :: l ∧ v ≠ "") kwargs →
  build_search_dict kwargs =
  Ok (prod_map id (λ value, default "" (head value)) <$> kwargs).
Proof.
  intros Hnd Hall. unfold build_search_dict.
  by rewrite foldl_take_first_fresh.
Qed.

(** X13: the first argument whose first value is empty makes
    [build_search_dict] fail with the 400 error that names it, and the
    first argument with no value at all makes it raise [IndexError];
    the arguments after it are not looked at. *)
Theorem first_invalid_argument before_it key l after_it :
  Forall (λ kv, ∃ v l, kv.2 = v :: l ∧ v ≠ "") before_it →
  build_search_dict (before_it ++ (key, "" :: l) :: after_it) =
    abort 400 (key +:+ " argument couldn't be empty") ∧
  build_search_dict (before_it ++ (key, []) :: after_it) = Raise IndexError.
Proof.
  intros Hall. unfold build_search_dict.
  destruct (foldl_take_first_valid _ [] Hall) as [sd Hsd].
  rewrite !foldl_app, Hsd. cbn [foldl].
  split; apply foldl_take_first_Raise.
Qed.

(** ** More on the search executor *)

Lemma fsearch_Ok max_results db max_count_results kwargs total results :
  fsearch max_results db max_count_results kwargs = Ok (total, results) →
  ∃ x y n c sd q cur,
    first_if_sequence max_results = Ok x ∧
    first_if_sequence max_count_results = Ok y ∧
    int_or_default MAX_RESULTS x = Ok n ∧
    int_or_default MAX_COUNT_RESULTS y = Ok c ∧
    build_search_dict kwargs = Ok sd ∧
    build_query sd = Ok q ∧
    total = (if c =? -1
             then count (find (persons_collection db) q None) false
             else count (limit (find (persons_collection db) q None) c) true) ∧
    match dict_get sd "start" with
    | Some start =>
        m ← int_of_str start;
        skip (find (persons_collection db) q (Some projection)) m
    | None => Ok (find (persons_collection db) q (Some projection))
    end = Ok cur ∧
    results = clean_person <$> fetch (limit cur n).
Proof.
  intros H. unfold fsearch in H.
  apply bind_Ok_inv in H as (x & Hx & H).
  apply bind_Ok_inv in H as (y & Hy & H).
  apply bind_Ok_inv in H as (n & Hn & H).
  apply bind_Ok_inv in H as (c & Hc & H).
  apply bind_Ok_inv in H as (sd & Hsd & H).
  apply bind_Ok_inv in H as (q & Hq & H).
  apply bind_Ok_inv in H as (cur & Hcur & H).
  injection H as <- <-.
  by exists x, y, n, c, sd, q, cur.
Qed.

Lemma skipped_cursor sd c q cur :
  match dict_get sd "start" with
  | Some start => m ← int_of_str start; skip (find c q (Some projection)) m
  | None => Ok (find c q (Some projection))
  end = Ok cur →
  matched cur = find_docs c q (Some projection) ∧
  first_record sd (cursor_skip cur).
Proof.
  unfold first_record. destruct (dict_get sd "start") as [start|].
  - intros (m & Hm & Hskip)%bind_Ok_inv. unfold skip in Hskip.
    destruct (m <? 0) eqn:Hneg; [discriminate|]. injection Hskip as <-.
    simpl. split; [done|]. apply Z.ltb_ge in Hneg.
    rewrite Hm. f_equal. lia.
  - by intros [= <-].
Qed.

Lemma fetch_positive_limit cur n :
  0 < n →
  fetch (limit cur n) = take (Z.to_nat n) (drop (cursor_skip cur) (matched cur)).
Proof.
  intros Hn. unfold fetch, limit. simpl.
  destruct (n =? 0) eqn:H0; [lia|]. by rewrite Zabs2Nat.abs_nat_nonneg by lia.
Qed.

(** X14: no record that [fsearch] returns has the key [_id] or a gedcom
    key: every record of the page went through [clean_person]. *)
Theorem results_are_sanitized max_results db max_count_results kwargs
    total results :
  fsearch max_results db max_count_results kwargs = Ok (total, results) →
  Forall (λ person, Forall (λ k, person !! k = None) storage_keys) results.
Proof.
  intros (x & y & n & c & sd & q & cur & _ & _ & _ & _ & _ & _ & _ & _ & ->)
    %fsearch_Ok.
  apply Forall_fmap, Forall_forall. intros person _.
  apply Forall_forall. intros k Hk. by apply clean_person_storage_key.
Qed.

(** X15: when [max_count_results] is left out or falsy, the total that
    [fsearch] returns is the number of all the records that match the
    compiled filter, whatever the page size and the [start] parameter. *)
Theorem total_counts_all_matches max_results db max_count_results kwargs
    total results :
  falsy_argument max_count_results →
  fsearch max_results db max_count_results kwargs = Ok (total, results) →
  ∃ search_dict search_query,
    build_search_dict kwargs = Ok search_dict ∧
    build_query search_dict = Ok search_query ∧
    total = length (find_docs (persons_collection db) search_query None).
Proof.
  intros (y' & Hy' & Hfalsy)%first_if_sequence_falsy
    (x & y & n & c & sd & q & cur & _ & Hy & _ & Hc & Hsd & Hq & -> & _)
    %fsearch_Ok.
  rewrite Hy' in Hy. injection Hy as <-.
  rewrite int_or_default_falsy in Hc by done. injection Hc as <-.
  by exists sd, q.
Qed.

(** X16: with a [max_count_results] of [n > 0] the total is the number of
    matching records capped at [n]. *)
Theorem total_capped max_results db max_count_results kwargs total results
    y n :
  first_if_sequence max_count_results = Ok y → py_int y = Ok n → 0 < n →
  fsearch max_results db max_count_results kwargs = Ok (total, results) →
  ∃ search_dict search_query,
    build_search_dict kwargs = Ok search_dict ∧
    build_query search_dict = Ok search_query ∧
    total = Nat.min (Z.to_nat n)
              (length (find_docs (persons_collection db) search_query None)).
Proof.
  intros Hy Hn Hpos
    (x & y' & m & c & sd & q & cur & _ & Hy' & _ & Hc & Hsd & Hq & -> & _)
    %fsearch_Ok.
  rewrite Hy in Hy'. injection Hy' as <-.
  assert (truthy y = true) as Ht.
  { destruct y as [|b|z|s| | |]; try discriminate.
    - destruct b; [done|]. injection Hn as <-. lia.
    - injection Hn as ->. apply negb_true_iff, Z.eqb_neq. lia.
    - by destruct s. }
  unfold int_or_default in Hc. rewrite Ht in Hc. cbn [negb] in Hc.
  rewrite Hn in Hc. injection Hc as <-.
  exists sd, q. split_and!; [done..|].
  destruct (n =? -1) eqn:H1; [lia|].
  unfold count. rewrite fetch_positive_limit by done.
  by rewrite length_take.
Qed.

(** X17: with a page size [n > 0], given or defaulted, the page is the
    window of [n] records that starts at record number [start] (0 when
    there is no [start] parameter) of the matching records, each sanitized;
    a [start] parameter that got through is a natural number. *)
Theorem page_window max_results db max_count_results kwargs total results
    x n :
  first_if_sequence max_results = Ok x →
  int_or_default MAX_RESULTS x = Ok n → 0 < n →
  fsearch max_results db max_count_results kwargs = Ok (total, results) →
  ∃ search_dict search_query first,
    build_search_dict kwargs = Ok search_dict ∧
    build_query search_dict = Ok search_query ∧
    first_record search_dict first ∧
    results =
      clean_person <$>
        take (Z.to_nat n)
          (drop first
             (find_docs (persons_collection db) search_query
                (Some projection))).
Proof.
  intros Hx Hn Hpos
    (x' & y & n' & c & sd & q & cur & Hx' & _ & Hn' & _ & Hsd & Hq & _ &
     Hcur & ->)%fsearch_Ok.
  rewrite Hx in Hx'. injection Hx' as <-.
  rewrite Hn in Hn'. injection Hn' as <-.
  destruct (skipped_cursor _ _ _ _ Hcur) as [Hdocs Hfirst].
  exists sd, q, (cursor_skip cur). split_and!; [done..|].
  by rewrite fetch_positive_limit, Hdocs.
Qed.

(** X18: a [max_results] that is a non-empty string but not an integer
    makes [fsearch] raise the [ValueError] of [int()], before the search
    arguments are looked at. *)
Theorem max_results_not_integer max_results db max_count_results kwargs s :
  first_if_sequence max_results = Ok (VStr s) → s ≠ "" →
  parse_int s = None →
  is_Ok (first_if_sequence max_count_results) = true →
  fsearch max_results db max_count_results kwargs =
  Raise (ValueError ("invalid literal for int() with base 10: " +:+ s)).
Proof.
  intros Hx Hs Hp Hy. unfold fsearch. rewrite Hx, bind_Ok.
  destruct (first_if_sequence max_count_results) as [y|]; [|discriminate].
  rewrite bind_Ok.
  assert (int_or_default MAX_RESULTS (VStr s) =
          Raise (ValueError ("invalid literal for int() with base 10: " +:+ s)))
    as ->; [|done].
  unfold int_or_default. destruct s as [|a s]; [done|].
  unfold py_int, int_of_str. change (truthy (VStr (String a s))) with true.
  cbn [negb]. by rewrite Hp.
Qed.

(** ** More failures of the compiler *)

(** X19: the range of [_generate_year_range] holds exactly the years at
    distance at most the fudge factor from the year; with a negative fudge
    factor it holds none. *)
Theorem year_in_range year fudge_factor y :
  range_min (_generate_year_range year fudge_factor) ≤ y ≤
    range_max (_generate_year_range year fudge_factor) ↔
  Z.abs (y - year) ≤ fudge_factor.
Proof. unfold _generate_year_range. simpl. lia. Qed.

Lemma split_go_colon cur s :
  Str.contains ":" s = true →
  ∃ a b l, Str.split_go ":" 0 cur s = a :: b :: l.
Proof.
  revert cur. induction s as [|c s IH]; intros cur; [done|].
  cbn [Str.contains Str.split_go].
  destruct (String.prefix ":" (String c s)).
  - intros _. simpl.
    destruct (split_go_head ":" 0 "" s) as (x & xs & ->). eauto.
  - rewrite orb_false_l. intros H. by apply IH.
Qed.

Lemma resolve_year_colon v :
  Str.contains ":" v = true →
  resolve_year v =
  match parse_int (default "" (Str.split ":" v !! 0%nat)),
        parse_int (default "" (Str.split ":" v !! 1%nat)) with
  | Some year, Some fudge_factor =>
      Ok (_generate_year_range year fudge_factor)
  | _, _ => abort 400 "Year and fudge factor must be integers"
  end.
Proof.
  intros Hc. unfold resolve_year. rewrite Hc. unfold Str.split.
  destruct (split_go_colon "" v Hc) as (a & b & l & ->).
  unfold list_index, int_of_str. simpl.
  destruct (parse_int a); [|done]. simpl. by destruct (parse_int b).
Qed.

(** X20: a year parameter [Y:F] whose year or fudge factor is not an
    integer makes the compiler fail with the 400 error "Year and fudge
    factor must be integers", the pieces being those before and after the
    first colon, up to the second one. The message is that of the whole
    compilation when the names and places resolve and the bare years are
    integers. *)
Theorem year_and_fudge_not_integers sd k v :
  NoDup (keys sd) → (k, v) ∈ sd → is_year k = true →
  Str.contains ":" v = true →
  parse_int (default "" (Str.split ":" v !! 0%nat)) = None ∨
  parse_int (default "" (Str.split ":" v !! 1%nat)) = None →
  resolve_year v = abort 400 "Year and fudge factor must be integers" ∧
  (∀ q, build_query sd ≠ Ok q) ∧
  ((∃ nps, resolve_names (names_and_places (classify_all sd)) = Ok nps) →
   (∀ k' v', (k', v') ∈ sd → is_year k' = true →
             Str.contains ":" v' = false → ∃ r, resolve_year v' = Ok r) →
   build_query sd = abort 400 "Year and fudge factor must be integers").
Proof.
  intros Hnd Hin Hy Hc Hp.
  assert (resolve_year v = abort 400 "Year and fudge factor must be integers")
    as Hr.
  { rewrite resolve_year_colon by done.
    destruct Hp as [-> | ->]; [done|]. by destruct (parse_int _). }
  pose proof (years_elem _ _ _ Hnd Hin Hy) as Hin'.
  split_and!; [done| |].
  - intros q (nps & ys & q' & _ & Hys & _)%build_query_Ok.
    destruct (resolve_years_elem _ _ _ _ Hys Hin') as (r & Hr' & _).
    rewrite Hr in Hr'. discriminate.
  - intros [nps Hnps] Hbare. apply (build_query_years_Raise _ nps); [done|].
    apply for_each_Raise_uniform.
    + intros [k' v'] Hkv'. rewrite classify_all_years in Hkv' by done.
      apply list_elem_of_filter in Hkv' as [Hy' Hkv']. simpl in Hy'.
      apply Is_true_true in Hy'.
      destruct (Str.contains ":" v') eqn:Hc'.
      * pose proof (resolve_year_colon v' Hc') as Hv'.
        destruct (parse_int _) in Hv'; [destruct (parse_int _) in Hv'|];
          rewrite Hv'; [left; eauto|by right..].
      * left. destruct (Hbare _ _ Hkv' Hy' Hc') as [r ->]. eauto.
    + exists (k, v). split; [done|]. by rewrite Hr.
Qed.

(** X21: a [tree_number] that is not an integer makes the compiler fail:
    no filter is produced, and when the names, the places and the years
    resolve the failure is the 400 error "Tree number must be an
    integer". *)
Theorem tree_number_not_integer sd t :
  dict_get sd "tree_number" = Some t → parse_int t = None →
  (∀ q, build_query sd ≠ Ok q) ∧
  ((∃ nps, resolve_names (names_and_places (classify_all sd)) = Ok nps) →
   (∃ ys, resolve_years (years (classify_all sd)) = Ok ys) →
   build_query sd = abort 400 "Tree number must be an integer").
Proof.
  intros Ht Hp.
  assert (∀ i q, add_tree_number sd i q =
                 abort 400 "Tree number must be an integer") as Htree.
  { intros i q. unfold add_tree_number, int_of_str. by rewrite Ht, Hp. }
  split.
  - intros q (nps & ys & q' & _ & _ & Hq' & _)%build_query_Ok.
    rewrite Htree in Hq'. discriminate.
  - intros [nps Hnps] [ys Hys].
    by rewrite build_query_unfold, Hnps, bind_Ok, Hys, bind_Ok, Htree.
Qed.

(** ** The order of the parameters *)

Lemma dict_get_perm {V} (d d' : list (string * V)) k :
  NoDup (keys d) → d ≡ₚ d' → dict_get d k = dict_get d' k.
Proof.
  intros Hnd Hp.
  assert (NoDup (keys d')) as Hnd' by (unfold keys; by rewrite <- Hp).
  destruct (dict_get d k) as [v|] eqn:Hv.
  - symmetry. apply dict_get_elem; [done|]. rewrite <- Hp.
    by apply dict_get_Some_elem.
  - symmetry. apply dict_get_None. apply dict_get_None in Hv.
    unfold keys in *. by rewrite <- Hp.
Qed.

Lemma existsb_perm {A} (f : A → bool) l l' :
  l ≡ₚ l' → existsb f l = existsb f l'.
Proof.
  induction 1 as [|x l l' _ IH|x y l|l l' l'' _ IH1 _ IH2]; simpl.
  - done.
  - by rewrite IH.
  - by destruct (f x), (f y).
  - congruence.
Qed.

Lemma for_each_perm {A B} (f : A → result B) l l' ys :
  l ≡ₚ l' → for_each f l = Ok ys →
  ∃ ys', for_each f l' = Ok ys' ∧ ys ≡ₚ ys'.
Proof.
  intros Hp. revert ys.
  induction Hp as [|x l l' _ IH|x y l|l l' l'' _ IH1 _ IH2]; intros ys H.
  - eauto.
  - simpl in H |- *. apply bind_Ok_inv in H as (b & Hb & H).
    apply bind_Ok_inv in H as (bs & Hbs & H). injection H as <-.
    destruct (IH _ Hbs) as (bs' & -> & Hperm). rewrite Hb.
    exists (b :: bs'). split; [done|]. by constructor.
  - simpl in H |- *. apply bind_Ok_inv in H as (b & Hb & H).
    apply bind_Ok_inv in H as (bs & Hbs & H). injection H as <-.
    apply bind_Ok_inv in Hbs as (c & Hc & H).
    apply bind_Ok_inv in H as (cs & Hcs & H). injection H as <-.
    rewrite Hb, Hc, Hcs. exists (c :: b :: cs). split; [done|]. constructor.
  - destruct (IH1 _ H) as (ys' & H' & Hperm).
    destruct (IH2 _ H') as (ys'' & H'' & Hperm').
    exists ys''. split; [done|]. by etrans.
Qed.

Lemma foldl_comm_perm {A B} (f : B → A → B) l l' :
  l ≡ₚ l' →
  (∀ a1 a2 b, a1 ∈ l → a2 ∈ l → f (f b a1) a2 = f (f b a2) a1) →
  ∀ b, foldl f b l = foldl f b l'.
Proof.
  induction 1 as [|x l l' Hp IH|x y l|l l' l'' Hp IH1 Hp' IH2];
    intros Hcomm b.
  - done.
  - cbn [foldl]. apply IH. intros a1 a2 b' H1 H2.
    apply Hcomm; by right.
  - cbn [foldl]. f_equal. apply Hcomm; [left|right; left].
  - rewrite IH1 by done. apply IH2. intros a1 a2 b' H1 H2.
    apply Hcomm; by rewrite Hp.
Qed.

Lemma add_name_comm sd nps e1 e2 q :
  NoDup (keys sd) →
  resolve_names (names_and_places (classify_all sd)) = Ok nps →
  e1 ∈ nps → e2 ∈ nps →
  add_name (add_name q e1) e2 = add_name (add_name q e2) e1.
Proof.
  intros Hnd Hnps H1 H2. rewrite !add_name_insert.
  destruct (decide (written_key e1 = written_key e2)) as [Heq|Hne];
    [|by apply insert_insert_ne].
  destruct e1 as [p1 [f1 x1]], e2 as [p2 [f2 x2]].
  pose proof (written_key_inj _ _ _ _ _ _
                (resolved_names_fields _ _ _ _ _ Hnps H1)
                (resolved_names_fields _ _ _ _ _ Hnps H2) Heq) as <-.
  assert (NoDup (keys nps)) as Hnd'.
  { pose proof (resolve_names_Ok _ _ Hnps) as Hall.
    assert (keys nps = keys (names_and_places (classify_all sd))) as ->.
    { unfold keys. clear -Hall.
      induction Hall as [|[p v] [p' r] ? ? [Hp _] _ IH]; [done|].
      rewrite !fmap_cons. simpl in *. by f_equal. }
    by apply names_and_places_NoDup. }
  by rewrite (dict_elem_unique _ _ _ _ Hnd' H1 H2).
Qed.

Lemma add_year_comm ys e1 e2 q :
  NoDup (keys ys) → e1 ∈ ys → e2 ∈ ys →
  add_year (add_year q e1) e2 = add_year (add_year q e2) e1.
Proof.
  intros Hnd H1 H2. destruct e1 as [i1 r1], e2 as [i2 r2].
  destruct (decide (i1 = i2)) as [<-|Hne].
  { by rewrite (dict_elem_unique _ _ _ _ Hnd H1 H2). }
  destruct (decide (i1 ∈ ["marriage_year"; "birth_year"; "death_year"]))
    as [Hi1|Hi1];
    [|unfold add_year at 2 3; by rewrite bool_decide_false].
  destruct (decide (i2 ∈ ["marriage_year"; "birth_year"; "death_year"]))
    as [Hi2|Hi2];
    [|unfold add_year at 1 4; by rewrite bool_decide_false].
  rewrite !add_year_insert by done. apply insert_insert_ne.
  intros Heq. apply Hne. by apply year_field_inj.
Qed.

(** X22: the filter does not depend on the order in which the parameters
    are iterated: two orders of the same parameters that compile give the
    same filter. *)
Theorem order_independent sd sd' q :
  sd ≡ₚ sd' → NoDup (keys sd) → build_query sd = Ok q →
  build_query sd' = Ok q.
Proof.
  intros Hp Hnd Hq.
  assert (NoDup (keys sd')) as Hnd' by (unfold keys; by rewrite <- Hp).
  destruct (build_query_Ok _ _ Hq) as (nps & ys & q' & Hnps & Hys & Hq' & ->).
  assert (names_and_places (classify_all sd)
          ≡ₚ names_and_places (classify_all sd')) as Hpn.
  { rewrite !classify_all_names by done. by rewrite Hp. }
  assert (years (classify_all sd) ≡ₚ years (classify_all sd')) as Hpy.
  { rewrite !classify_all_years by done. by rewrite Hp. }
  destruct (for_each_perm _ _ _ _ Hpn Hnps) as (nps' & Hnps' & Hpn').
  destruct (for_each_perm _ _ _ _ Hpy Hys) as (ys' & Hys' & Hpy').
  fold (resolve_names (names_and_places (classify_all sd'))) in Hnps'.
  fold (resolve_years (years (classify_all sd'))) in Hys'.
  assert (sex (classify_all sd) = sex (classify_all sd')) as Hsex.
  { unfold classify_all. rewrite !foldl_classify_sex by done.
    by rewrite (dict_get_perm sd sd'). }
  assert (individual_id (classify_all sd) = individual_id (classify_all sd'))
    as Hid.
  { unfold classify_all. rewrite !foldl_classify_individual_id by done.
    by rewrite (dict_get_perm sd sd'). }
  assert (only_deceased (classify_all sd) = only_deceased (classify_all sd'))
    as Hod.
  { rewrite !classify_all_only_deceased. apply existsb_perm.
    unfold keys. by rewrite Hp. }
  assert (assemble (classify_all sd) ys nps =
          assemble (classify_all sd') ys' nps') as Hassemble.
  { unfold assemble. rewrite <- Hsex.
    rewrite (foldl_comm_perm add_year ys ys' Hpy').
    - apply (foldl_comm_perm add_name nps nps' Hpn').
      intros e1 e2 b H1 H2. by apply (add_name_comm sd nps).
    - intros e1 e2 b H1 H2. apply (add_year_comm ys); [|done..].
      rewrite (resolve_years_keys _ _ Hys). by apply years_NoDup. }
  rewrite build_query_unfold, Hnps', bind_Ok, Hys', bind_Ok.
  rewrite <- Hassemble, <- Hid, <- Hod.
  assert (∀ i b, add_tree_number sd' i b = add_tree_number sd i b) as ->.
  { intros i b. unfold add_tree_number. by rewrite (dict_get_perm sd sd'). }
  by rewrite Hq'.
Qed.
End Fsearch.

(** ** The model on concrete inputs *)

Example split_semicolon :
  Str.split ";" "lodz;phonetic;x" = ["lodz"; "phonetic"; "x"].
Proof. reflexivity. Qed.

Example split_trailing_colon : Str.split ":" "1907:" = ["1907"; ""].
Proof. reflexivity. Qed.

Example split_field_name : Str.split "_lc" "name_lc.1" = ["name"; ".1"].
Proof. reflexivity. Qed.

Example parse_int_signed : parse_int " -12 " = Some (-12).
Proof. reflexivity. Qed.

Example parse_int_letters : parse_int "19o7" = None.
Proof. reflexivity. Qed.

Example workplace_is_a_place : is_name_or_place "workplace" = true.
Proof. reflexivity. Qed.

Example phonetic_last_name :
  resolve_name soundex_double any_pattern "last_name" "cohen;phonetic" =
  Ok ("nameS", VStr "S:cohen").
Proof. reflexivity. Qed.

Example prefix_last_name :
  resolve_name soundex_double any_pattern "last_name" "coh;prefix" =
  Ok ("name_lc.1", VRegex "^coh").
Proof. reflexivity. Qed.

Example clean_deceased_person :
  let cleaned :=
    clean_person (is_living_person_spec 2016 100) whitelist_spec
      (list_to_map [("BIRT_PLAC", VStr "Lodz"); ("NOTE", VStr "x");
                    ("deceased", VBool true)]) in
  (cleaned !! "birth_place", cleaned !! "bio", cleaned !! "deceased",
   cleaned !! "BIRT_PLAC", cleaned !! "NOTE", size cleaned) =
  (Some (VStr "Lodz"), Some (VStr "x"), Some (VBool true), None, None, 3%nat).
Proof. vm_compute. reflexivity. Qed.

Example clean_living_person :
  let cleaned :=
    clean_person (is_living_person_spec 2016 100) whitelist_spec
      (list_to_map [("_id", VInt 7); ("name", VStr "Dan"); ("NOTE", VStr "x");
                    ("BIRT_PLAC", VStr "Lodz"); ("deceased", VBool false)]) in
  (cleaned !! "name", cleaned !! "deceased", cleaned !! "birth_place",
   cleaned !! "bio", size cleaned) =
  (Some (VStr "Dan"), None, None, None, 1%nat).
Proof. vm_compute. reflexivity. Qed.

(** ** Witnesses and counterexamples *)

Ltac by_computation := apply (bool_decide_unpack _); vm_compute; exact I.
Ltac by_evaluation := vm_compute; reflexivity.
Ltac returns := apply is_Ok_from_Ok; by_evaluation.

(** C5 at [death_place=Lodz]. *)
Lemma place_or_year_forces_deceased_witness :
  let sd := [("death_place", "Lodz")] in
  let q := from_Ok ∅ (build_query soundex_double any_pattern sd) in
  "death_place" ∈ keys sd ∧
  build_query soundex_double any_pattern sd = Ok q ∧
  q !! "deceased" = Some (VBool true).
Proof.
  intros sd q.
  assert ("death_place" ∈ keys sd) as Hk by by_computation.
  assert (build_query soundex_double any_pattern sd = Ok q) as Hq by returns.
  split_and!; [exact Hk | exact Hq |].
  exact (place_or_year_forces_deceased soundex_double any_pattern
           sd q "death_place" Hk eq_refl Hq).
Defined.

(** C7 at [first_name=Yeh;phonetic]: the clause is on ["yeh"]. *)
Lemma first_name_exact_match_witness :
  let sd := [("first_name", "Yeh;phonetic")] in
  let q := from_Ok ∅ (build_query soundex_double any_pattern sd) in
  NoDup (keys sd) ∧ ("first_name", "Yeh;phonetic") ∈ sd ∧
  build_query soundex_double any_pattern sd = Ok q ∧
  q !! "name_lc.0" = Some (VStr "yeh").
Proof.
  intros sd q.
  assert (NoDup (keys sd)) as Hnd by by_computation.
  assert (("first_name", "Yeh;phonetic") ∈ sd) as Hin by left.
  assert (build_query soundex_double any_pattern sd = Ok q) as Hq by returns.
  split_and!; [exact Hnd | exact Hin | exact Hq |].
  exact (proj2 (first_name_exact_match soundex_double any_pattern
                  sd "Yeh;phonetic" q Hnd Hin Hq)
           "Yeh" "phonetic" eq_refl eq_refl).
Defined.

(** C3 at [birth_year=1907:2]: the range 1905..1909. *)
Lemma year_range_bounds_witness :
  let sd := [("birth_year", "1907:2")] in
  let q := from_Ok ∅ (build_query soundex_double any_pattern sd) in
  NoDup (keys sd) ∧ parses_as_year "1907:2" 1907 2 ∧
  build_query soundex_double any_pattern sd = Ok q ∧
  resolve_year "1907:2" = Ok {| range_min := 1905; range_max := 1909 |} ∧
  q !! "birth_year" = Some (VDict [("$gte", VInt 1905); ("$lte", VInt 1909)]) ∧
  (0 ≤ 2 → 1905 ≤ 1909).
Proof.
  intros sd q.
  assert (NoDup (keys sd)) as Hnd by by_computation.
  assert (parses_as_year "1907:2" 1907 2) as Hparse.
  { exists "1907", "2". by split_and!. }
  assert (build_query soundex_double any_pattern sd = Ok q) as Hq by returns.
  split_and!; [exact Hnd | exact Hparse | exact Hq |..];
    apply (year_range_bounds soundex_double any_pattern
             sd q "birth_year" "1907:2" 1907 2 Hnd); try done;
    first [left | right; left].
Defined.

(** C3, the claim as stated: [birth_year=1907:-2] reads as a year and a
    fudge factor and compiles to the range from 1909 to 1905, whose [min] is
    above its [max]. *)
Lemma negative_fudge_factor_inverts_range :
  parses_as_year "1907:-2" 1907 (-2) ∧
  resolve_year "1907:-2" = Ok {| range_min := 1909; range_max := 1905 |} ∧
  clause (build_query soundex_double any_pattern [("birth_year", "1907:-2")])
    "birth_year" = Some (VDict [("$gte", VInt 1909); ("$lte", VInt 1905)]) ∧
  1905 < 1909.
Proof.
  split_and!.
  - exists "1907", "-2". by split_and!.
  - reflexivity.
  - by_evaluation.
  - reflexivity.
Defined.

(** C9 at [birth_year=19o7]. *)
Lemma bare_year_not_integer_witness :
  let sd := [("birth_year", "19o7")] in
  NoDup (keys sd) ∧ ("birth_year", "19o7") ∈ sd ∧
  is_year "birth_year" = true ∧ Str.contains ":" "19o7" = false ∧
  parse_int "19o7" = None ∧
  resolve_year "19o7" = abort 400 "Year must be an integer" ∧
  (∀ q, build_query soundex_double any_pattern sd ≠ Ok q) ∧
  build_query soundex_double any_pattern sd =
    abort 400 "Year must be an integer".
Proof.
  intros sd.
  assert (NoDup (keys sd)) as Hnd by by_computation.
  assert (("birth_year", "19o7") ∈ sd) as Hin by left.
  destruct (bare_year_not_integer soundex_double any_pattern
              sd "birth_year" "19o7" Hnd Hin eq_refl eq_refl eq_refl)
    as (H1 & H2 & H3).
  split_and!; [exact Hnd | exact Hin | reflexivity.. | exact H1 | exact H2 |].
  apply H3.
  - exists []. reflexivity.
  - intros k' v' Hkv' _ Hc. apply list_elem_of_singleton in Hkv'.
    injection Hkv' as -> ->. discriminate Hc.
Defined.

(** C9, the claim as stated: the message of a bare year that is not an
    integer is not the message of the [Y:F] case. *)
Lemma bare_year_has_its_own_message :
  build_query soundex_double any_pattern [("birth_year", "19o7")] =
    Raise (HTTPException 400 "Year must be an integer") ∧
  build_query soundex_double any_pattern [("birth_year", "19o7:x")] =
    Raise (HTTPException 400 "Year and fudge factor must be integers") ∧
  String.eqb "Year must be an integer"
             "Year and fudge factor must be integers" = false.
Proof. split_and!; by_evaluation. Defined.

(** C2 at [page=2] beside a first name (ignored) and at [workplace=office]
    (refused). *)
Lemma unrecognized_key_witness :
  let sd := [("first_name", "yeh"); ("page", "2")] in
  let sd' := [("workplace", "office")] in
  NoDup (keys sd) ∧ ("page", "2") ∈ sd ∧
  NoDup (keys sd') ∧ ("workplace", "office") ∈ sd' ∧
  build_query soundex_double any_pattern sd =
    build_query soundex_double any_pattern [("first_name", "yeh")] ∧
  is_Ok (build_query soundex_double any_pattern sd) = true ∧
  (∀ q, build_query soundex_double any_pattern sd' ≠ Ok q) ∧
  build_query soundex_double any_pattern sd' = Raise (KeyError "workplace").
Proof.
  intros sd sd'.
  assert (NoDup (keys sd)) as Hnd by by_computation.
  assert (("page", "2") ∈ sd) as Hin by (right; left).
  assert (NoDup (keys sd')) as Hnd' by by_computation.
  assert (("workplace", "office") ∈ sd') as Hin' by left.
  destruct (unrecognized_key soundex_double any_pattern sd "page" "2" Hnd Hin)
    as [Hignored _].
  destruct (unrecognized_key soundex_double any_pattern
              sd' "workplace" "office" Hnd' Hin') as [_ Hrefused].
  destruct (Hrefused eq_refl eq_refl) as [Hno Hraise].
  split_and!; [done..| | by_evaluation | exact Hno |].
  - apply Hignored; [reflexivity..|by_computation].
  - apply Hraise. intros k' v' Hkv' Hne. apply list_elem_of_singleton in Hkv'.
    injection Hkv' as -> ->. done.
Defined.

(** C2, the claim as stated: the key [workplace] ends in [place], has no
    [ARGS_TO_INDEX] entry and makes [build_query] raise. *)
Lemma workplace_raises_KeyError :
  Str.endswith "place" "workplace" = true ∧
  dict_get ARGS_TO_INDEX "workplace" = None ∧
  build_query soundex_double any_pattern [("workplace", "office")] =
    Raise (KeyError "workplace").
Proof. split_and!; by_evaluation. Defined.

(** C1 at [tree_number=5], [last_name=Cohen], [birth_year=1907], [sex=f]. *)
Lemma tree_number_clauses_witness :
  let sd := [("tree_number", "5"); ("last_name", "Cohen");
             ("birth_year", "1907"); ("sex", "f")] in
  let q := from_Ok ∅ (build_query soundex_double any_pattern sd) in
  NoDup (keys sd) ∧ ("tree_number", "5") ∈ sd ∧ parse_int "5" = Some 5 ∧
  build_query soundex_double any_pattern sd = Ok q ∧
  ("individual_id" ∉ keys sd) ∧
  q !! "tree_num" = Some (VInt 5) ∧
  q !! "sex" = Some (VStr "F").
Proof.
  intros sd q.
  assert (NoDup (keys sd)) as Hnd by by_computation.
  assert (("tree_number", "5") ∈ sd) as Hin by left.
  assert (build_query soundex_double any_pattern sd = Ok q) as Hq by returns.
  assert ("individual_id" ∉ keys sd) as Hid by by_computation.
  destruct (tree_number_clauses soundex_double any_pattern
              sd q "5" 5 Hnd Hin eq_refl Hq) as (Htree & _ & Hkept).
  destruct (Hkept Hid) as (_ & _ & Hsex).
  split_and!; [done..|].
  apply (Hsex "f"); [do 3 right; left | right; left].
Defined.

(** C1, the claim as stated: with [tree_number=5] the clauses of
    [last_name], [birth_year] and [sex] are in the filter, beside
    [archived] and [tree_num]. *)
Lemma tree_number_keeps_other_clauses :
  let r := build_query soundex_double any_pattern
             [("tree_number", "5"); ("last_name", "Cohen");
              ("birth_year", "1907"); ("sex", "f")] in
  clause r "tree_num" = Some (VInt 5) ∧
  clause r "name_lc.1" = Some (VStr "cohen") ∧
  clause r "birth_year" = Some (VDict [("$gte", VInt 1907);
                                       ("$lte", VInt 1907)]) ∧
  clause r "sex" = Some (VStr "F") ∧
  clause r "deceased" = Some (VBool true).
Proof. split_and!; by_evaluation. Defined.

(** C6 at [place=Lodz;phonetic] with [birth_place=Warsaw]. *)
Lemma place_clauses_witness :
  let sd := [("place", "Lodz;phonetic"); ("birth_place", "Warsaw")] in
  let q := from_Ok ∅ (build_query soundex_double any_pattern sd) in
  NoDup (keys sd) ∧ build_query soundex_double any_pattern sd = Ok q ∧
  q !! "$or" = Some (VList [VDict [("BIRT_PLACS", VStr "S:lodz")];
                            VDict [("MARR_PLACS", VStr "S:lodz")];
                            VDict [("DEAT_PLACS", VStr "S:lodz")]]) ∧
  q !! "BIRT_PLAC_lc" = Some (VStr "warsaw") ∧
  q !! "MARR_PLAC_lc" = None ∧ q !! "MARR_PLACS" = None.
Proof.
  intros sd q.
  assert (NoDup (keys sd)) as Hnd by by_computation.
  assert (build_query soundex_double any_pattern sd = Ok q) as Hq by returns.
  destruct (place_clauses soundex_double any_pattern sd q Hnd Hq)
    as (Hplace & Hown & Hothers & _).
  split_and!; [exact Hnd | exact Hq |..].
  - destruct (Hplace "Lodz;phonetic") as (f & x & Hr & Hor); [left|].
    injection Hr as <- <-. exact Hor.
  - destruct (Hown "birth_place" "Warsaw") as (x & Hr & Hclause);
      [left | right; left|].
    injection Hr as <-. exact Hclause.
  - apply (Hothers "marriage_place"); [right; left | by_computation].
  - apply (Hothers "marriage_place"); [right; left | by_computation].
Defined.

(** C4 at a record with [deceased = False] and no [birth_year]: the
    predicate of the specification holds, and a key that the sanitizer keeps
    is in the whitelist. *)
Lemma living_person_whitelisted_witness :
  let person : gmap string pyval :=
    list_to_map [("_id", VInt 7); ("name", VStr "Dan"); ("NOTE", VStr "x");
                 ("BIRT_PLAC", VStr "Lodz"); ("deceased", VBool false)] in
  is_living_person_spec 2016 100 (person_get person "deceased")
                                 (person_get person "birth_year") = true ∧
  is_Some (clean_person (is_living_person_spec 2016 100) whitelist_spec person
             !! "name") ∧
  "name" ∈ whitelist_spec.
Proof.
  intros person.
  assert (is_living_person_spec 2016 100 (person_get person "deceased")
            (person_get person "birth_year") = true) as Hliving
    by by_evaluation.
  assert (is_Some (clean_person (is_living_person_spec 2016 100)
                     whitelist_spec person !! "name")) as Hkept.
  { exists (VStr "Dan"). by_evaluation. }
  split_and!; [exact Hliving | exact Hkept |].
  exact (living_person_whitelisted (is_living_person_spec 2016 100)
           whitelist_spec person "name" Hliving Hkept).
Defined.

(** C8 with no [max_results] over a collection of 31 matching records: the
    page has 30. *)
Lemma default_page_size_witness :
  let db := database_double (replicate 31 {["name" := VStr "Dan"]}) in
  let r := fsearch soundex_double any_pattern (is_living_person_spec 2016 100)
             whitelist_spec (database_double []) VNone (Some db) VNone [] in
  falsy_argument VNone ∧ r = Ok (from_Ok (0%nat, []) r) ∧
  (from_Ok (0%nat, []) r).1 = 31%nat ∧
  length (from_Ok (0%nat, []) r).2 = 30%nat ∧
  (length (from_Ok (0%nat, []) r).2 ≤ 30)%nat.
Proof.
  intros db r.
  assert (r = Ok (from_Ok (0%nat, []) r)) as Hr by returns.
  split_and!; [reflexivity | exact Hr | by_evaluation | by_evaluation |].
  destruct (from_Ok (0%nat, []) r) as [total results].
  exact (proj1 (default_page_size soundex_double any_pattern
                  (is_living_person_spec 2016 100) whitelist_spec
                  (database_double []) VNone (Some db) VNone []
                  total results eq_refl Hr)).
Defined.

(** C8, the claim as stated: with no [max_results] and 16 matching records
    the page has 16 records, more than 15. *)
Lemma default_page_exceeds_15 :
  let db := database_double (replicate 16 {["name" := VStr "Dan"]}) in
  let r := fsearch soundex_double any_pattern (is_living_person_spec 2016 100)
             whitelist_spec (database_double []) VNone (Some db) VNone [] in
  is_Ok r = true ∧ length (from_Ok (0%nat, []) r).2 = 16%nat ∧ (15 < 16)%nat.
Proof. split_and!; [by_evaluation..|]. by_computation. Defined.

(** C10 at [start=abc]. *)
Lemma start_not_integer_witness :
  let kwargs := [("first_name", ["yeh"]); ("start", ["abc"])] in
  let sd := [("first_name", "yeh"); ("start", "abc")] in
  let q := from_Ok ∅ (build_query soundex_double any_pattern sd) in
  build_search_dict kwargs = Ok sd ∧
  build_query soundex_double any_pattern sd = Ok q ∧
  dict_get sd "start" = Some "abc" ∧ parse_int "abc" = None ∧
  fsearch soundex_double any_pattern (is_living_person_spec 2016 100)
    whitelist_spec (database_double []) VNone None VNone kwargs =
  Raise (ValueError "invalid literal for int() with base 10: abc").
Proof.
  intros kwargs sd q.
  assert (build_query soundex_double any_pattern sd = Ok q) as Hq by returns.
  split_and!; [reflexivity | exact Hq | reflexivity | reflexivity |].
  exact (proj1 (start_not_integer soundex_double any_pattern
                  (is_living_person_spec 2016 100) whitelist_spec
                  (database_double []) VNone None VNone kwargs
                  VNone VNone 30 (-1) sd q "abc"
                  eq_refl eq_refl eq_refl eq_refl eq_refl Hq eq_refl eq_refl)).
Defined.

(** ** Witnesses of the further properties *)

(** X1 at [first_name=yeh]. *)
Lemma archived_clause_always_witness :
  let sd := [("first_name", "yeh")] in
  let q := from_Ok ∅ (build_query soundex_double any_pattern sd) in
  build_query soundex_double any_pattern sd = Ok q ∧
  q !! "archived" = Some (VDict [("$exists", VBool false)]).
Proof.
  intros sd q.
  assert (build_query soundex_double any_pattern sd = Ok q) as Hq by returns.
  split; [exact Hq|].
  exact (archived_clause_always soundex_double any_pattern sd q Hq).
Defined.

(** X2 at [first_name=yeh], which has no place and no year. *)
Lemma deceased_clause_iff_witness :
  let sd := [("first_name", "yeh")] in
  let q := from_Ok ∅ (build_query soundex_double any_pattern sd) in
  build_query soundex_double any_pattern sd = Ok q ∧
  q !! "deceased" = None.
Proof.
  intros sd q.
  assert (build_query soundex_double any_pattern sd = Ok q) as Hq by returns.
  split; [exact Hq|].
  exact (deceased_clause_iff soundex_double any_pattern sd q Hq).
Defined.

(** X3 at [sex=f]. *)
Lemma sex_clause_witness :
  let sd := [("sex", "f")] in
  let q := from_Ok ∅ (build_query soundex_double any_pattern sd) in
  NoDup (keys sd) ∧
  build_query soundex_double any_pattern sd = Ok q ∧
  q !! "sex" = Some (VStr "F").
Proof.
  intros sd q.
  assert (NoDup (keys sd)) as Hnd by by_computation.
  assert (build_query soundex_double any_pattern sd = Ok q) as Hq by returns.
  split_and!; [exact Hnd | exact Hq |].
  exact (sex_clause soundex_double any_pattern sd q Hnd Hq).
Defined.

(** X4 at [graduation_year=1950] beside a first name. *)
Lemma unknown_year_key_witness :
  let sd := [("first_name", "yeh"); ("graduation_year", "1950")] in
  let q := from_Ok ∅ (build_query soundex_double any_pattern sd) in
  NoDup (keys sd) ∧ ("graduation_year", "1950") ∈ sd ∧
  is_year "graduation_year" = true ∧
  build_query soundex_double any_pattern sd = Ok q ∧
  ∃ q0, build_query soundex_double any_pattern
          (filter (λ kv, kv.1 ≠ "graduation_year") sd) = Ok q0 ∧
        q = <["deceased" := VBool true]> q0.
Proof.
  intros sd q.
  assert (NoDup (keys sd)) as Hnd by by_computation.
  assert (("graduation_year", "1950") ∈ sd) as Hin by (right; left).
  assert ("graduation_year" ∉ ["marriage_year"; "birth_year"; "death_year"])
    as Hk by by_computation.
  assert (build_query soundex_double any_pattern sd = Ok q) as Hq by returns.
  split_and!; [exact Hnd | exact Hin | reflexivity | exact Hq |].
  exact (unknown_year_key soundex_double any_pattern sd q
           "graduation_year" "1950" Hnd Hin eq_refl Hk Hq).
Defined.

(** X5 at [individual_id=I12] beside a first name. *)
Lemma individual_id_needs_tree_number_witness :
  let sd := [("first_name", "yeh"); ("individual_id", "I12")] in
  ("tree_number" ∉ keys sd) ∧
  is_Ok (build_query soundex_double any_pattern sd) = true ∧
  build_query soundex_double any_pattern sd =
  build_query soundex_double any_pattern
    (filter (λ kv, kv.1 ≠ "individual_id") sd).
Proof.
  intros sd.
  assert ("tree_number" ∉ keys sd) as Hk by by_computation.
  split_and!; [exact Hk | by_evaluation |].
  exact (individual_id_needs_tree_number soundex_double any_pattern sd Hk).
Defined.

(** X6 at [first_name=Yeh] and [first_name=yeh]. *)
Lemma case_insensitive_witness :
  let sd := [("first_name", "Yeh"); ("birth_year", "1907")] in
  let sd' := [("first_name", "yeh"); ("birth_year", "1907")] in
  is_Ok (build_query soundex_double any_pattern sd) = true ∧
  build_query soundex_double any_pattern sd =
  build_query soundex_double any_pattern sd'.
Proof.
  intros sd sd'. split; [by_evaluation|].
  apply (case_insensitive soundex_double any_pattern sd sd').
  repeat constructor.
Defined.

(** X7 at [last_name=Cohen;phonetic]. *)
Lemma last_name_modifiers_witness :
  let sd := [("last_name", "Cohen;phonetic")] in
  let q := from_Ok ∅ (build_query soundex_double any_pattern sd) in
  NoDup (keys sd) ∧ ("last_name", "Cohen;phonetic") ∈ sd ∧
  build_query soundex_double any_pattern sd = Ok q ∧
  q !! "nameS" = Some (VStr (soundex_double "cohen")) ∧
  q !! "name_lc.1" = None.
Proof.
  intros sd q.
  assert (NoDup (keys sd)) as Hnd by by_computation.
  assert (("last_name", "Cohen;phonetic") ∈ sd) as Hin by left.
  assert (build_query soundex_double any_pattern sd = Ok q) as Hq by returns.
  pose proof (last_name_modifiers soundex_double any_pattern
                sd "Cohen;phonetic" q Hnd Hin Hq) as H.
  cbv zeta in H.
  assert (Str.split ";" (Str.lower "Cohen;phonetic") !! 1%nat =
          Some "phonetic") as Hm by by_evaluation.
  assert (Str.lower (before ";" "Cohen;phonetic") = "cohen") as Hs
    by by_evaluation.
  rewrite Hm, Hs in H.
  rewrite decide_False in H by discriminate.
  rewrite decide_True in H by reflexivity.
  split_and!; [exact Hnd | exact Hin | exact Hq | apply H..].
Defined.

(** X9 at the birth place of a deceased person. *)
Lemma gedcom_value_moved_witness :
  let person : gmap string pyval :=
    list_to_map [("BIRT_PLAC", VStr "Lodz"); ("birth_place", VStr "Warsaw");
                 ("deceased", VBool true)] in
  ("BIRT_PLAC", "birth_place") ∈ gedcom_names ∧
  person !! "BIRT_PLAC" = Some (VStr "Lodz") ∧
  is_living_person_spec 2016 100 (person_get person "deceased")
                                 (person_get person "birth_year") = false ∧
  clean_person (is_living_person_spec 2016 100) whitelist_spec person
    !! "birth_place" = Some (VStr "Lodz").
Proof.
  intros person.
  assert (("BIRT_PLAC", "birth_place") ∈ gedcom_names) as Hin by left.
  assert (person !! "BIRT_PLAC" = Some (VStr "Lodz")) as Hv by by_evaluation.
  assert (is_living_person_spec 2016 100 (person_get person "deceased")
            (person_get person "birth_year") = false) as Hdead
    by by_evaluation.
  split_and!; [exact Hin | exact Hv | exact Hdead |].
  exact (gedcom_value_moved (is_living_person_spec 2016 100) whitelist_spec
           person "BIRT_PLAC" "birth_place" (VStr "Lodz") Hin Hv
           (or_introl Hdead)).
Defined.

(** X10 at the name of a living person. *)
Lemma other_fields_kept_witness :
  let person : gmap string pyval :=
    list_to_map [("_id", VInt 7); ("name", VStr "Dan");
                 ("BIRT_PLAC", VStr "Lodz"); ("deceased", VBool false)] in
  ("name" ∉ storage_keys) ∧ ("name" ∉ gedcom_names.*2) ∧
  "name" ∈ whitelist_spec ∧
  clean_person (is_living_person_spec 2016 100) whitelist_spec person
    !! "name" = person !! "name".
Proof.
  intros person.
  assert ("name" ∉ storage_keys) as Hs by by_computation.
  assert ("name" ∉ gedcom_names.*2) as Ha by by_computation.
  assert ("name" ∈ whitelist_spec) as Hw by left.
  split_and!; [exact Hs | exact Ha | exact Hw |].
  exact (other_fields_kept (is_living_person_spec 2016 100) whitelist_spec
           person "name" Hs Ha (or_intror Hw)).
Defined.

(** X12 at [first_name=yeh&first_name=dan&start=5]. *)
Lemma first_values_taken_witness :
  let kwargs := [("first_name", ["yeh"; "dan"]); ("start", ["5"])] in
  NoDup (keys kwargs) ∧
  build_search_dict kwargs = Ok [("first_name", "yeh"); ("start", "5")].
Proof.
  intros kwargs.
  assert (NoDup (keys kwargs)) as Hnd by by_computation.
  split; [exact Hnd|].
  apply (first_values_taken kwargs Hnd).
  repeat (constructor; [eexists _, _; split; [reflexivity|done]|]).
  constructor.
Defined.

(** X13 at an empty [last_name] after a first name. *)
Lemma first_invalid_argument_witness :
  build_search_dict [("first_name", ["yeh"]); ("last_name", [""]);
                     ("start", [])] =
    abort 400 "last_name argument couldn't be empty" ∧
  build_search_dict [("first_name", ["yeh"]); ("last_name", []);
                     ("start", [])] = Raise IndexError.
Proof.
  apply (first_invalid_argument [("first_name", ["yeh"])] "last_name" []
           [("start", [])]).
  repeat (constructor; [eexists _, _; split; [reflexivity|done]|]).
  constructor.
Defined.

(** X14 over two records with an [_id] and gedcom keys. *)
Lemma results_are_sanitized_witness :
  let db := database_double
              [ {["_id" := VInt 1; "name" := VStr "Dan"; "NOTE" := VStr "x"]};
                {["_id" := VInt 2; "BIRT_PLAC" := VStr "Lodz";
                  "deceased" := VBool true]} ] in
  let r := fsearch soundex_double any_pattern (is_living_person_spec 2016 100)
             whitelist_spec (database_double []) VNone (Some db) VNone [] in
  r = Ok (from_Ok (0%nat, []) r) ∧
  length (from_Ok (0%nat, []) r).2 = 2%nat ∧
  Forall (λ person, Forall (λ k, person !! k = None) storage_keys)
    (from_Ok (0%nat, []) r).2.
Proof.
  intros db r.
  assert (r = Ok (from_Ok (0%nat, []) r)) as Hr by returns.
  split_and!; [exact Hr | by_evaluation |].
  destruct (from_Ok (0%nat, []) r) as [total results].
  exact (results_are_sanitized soundex_double any_pattern
           (is_living_person_spec 2016 100) whitelist_spec
           (database_double []) VNone (Some db) VNone [] total results Hr).
Defined.

(** X15 over 31 matching records, with a page of 5. *)
Lemma total_counts_all_matches_witness :
  let db := database_double (replicate 31 {["name" := VStr "Dan"]}) in
  let r := fsearch soundex_double any_pattern (is_living_person_spec 2016 100)
             whitelist_spec (database_double []) (VInt 5) (Some db) VNone [] in
  falsy_argument VNone ∧ r = Ok (from_Ok (0%nat, []) r) ∧
  (from_Ok (0%nat, []) r).1 = 31%nat ∧
  ∃ search_dict search_query,
    build_search_dict [] = Ok search_dict ∧
    build_query soundex_double any_pattern search_dict = Ok search_query ∧
    (from_Ok (0%nat, []) r).1 =
    length (find_docs (persons_collection (database_double []) (Some db))
              search_query None).
Proof.
  intros db r.
  assert (r = Ok (from_Ok (0%nat, []) r)) as Hr by returns.
  split_and!; [reflexivity | exact Hr | by_evaluation |].
  destruct (from_Ok (0%nat, []) r) as [total results].
  exact (total_counts_all_matches soundex_double any_pattern
           (is_living_person_spec 2016 100) whitelist_spec
           (database_double []) (VInt 5) (Some db) VNone [] total results
           eq_refl Hr).
Defined.

(** X16 with [max_count_results=10] over 31 matching records. *)
Lemma total_capped_witness :
  let db := database_double (replicate 31 {["name" := VStr "Dan"]}) in
  let r := fsearch soundex_double any_pattern (is_living_person_spec 2016 100)
             whitelist_spec (database_double []) VNone (Some db)
             (VList [VStr "10"]) [] in
  first_if_sequence (VList [VStr "10"]) = Ok (VStr "10") ∧
  py_int (VStr "10") = Ok 10 ∧ 0 < 10 ∧
  r = Ok (from_Ok (0%nat, []) r) ∧
  (from_Ok (0%nat, []) r).1 = 10%nat ∧
  ∃ search_dict search_query,
    build_search_dict [] = Ok search_dict ∧
    build_query soundex_double any_pattern search_dict = Ok search_query ∧
    (from_Ok (0%nat, []) r).1 =
    Nat.min (Z.to_nat 10)
      (length (find_docs (persons_collection (database_double []) (Some db))
                 search_query None)).
Proof.
  intros db r.
  assert (r = Ok (from_Ok (0%nat, []) r)) as Hr by returns.
  split_and!; [reflexivity | reflexivity | reflexivity | exact Hr |
               by_evaluation |].
  destruct (from_Ok (0%nat, []) r) as [total results].
  exact (total_capped soundex_double any_pattern
           (is_living_person_spec 2016 100) whitelist_spec
           (database_double []) VNone (Some db) (VList [VStr "10"]) []
           total results (VStr "10") 10 eq_refl eq_refl eq_refl Hr).
Defined.

(** X17 with [max_results=5] and [start=2] over 31 matching records. *)
Lemma page_window_witness :
  let db := database_double (replicate 31 {["name" := VStr "Dan"]}) in
  let kwargs := [("start", ["2"])] in
  let r := fsearch soundex_double any_pattern (is_living_person_spec 2016 100)
             whitelist_spec (database_double []) (VStr "5") (Some db) VNone
             kwargs in
  first_if_sequence (VStr "5") = Ok (VStr "5") ∧
  int_or_default MAX_RESULTS (VStr "5") = Ok 5 ∧ 0 < 5 ∧
  r = Ok (from_Ok (0%nat, []) r) ∧
  length (from_Ok (0%nat, []) r).2 = 5%nat ∧
  ∃ search_dict search_query first,
    build_search_dict kwargs = Ok search_dict ∧
    build_query soundex_double any_pattern search_dict = Ok search_query ∧
    first_record search_dict first ∧
    (from_Ok (0%nat, []) r).2 =
      clean_person (is_living_person_spec 2016 100) whitelist_spec <$>
        take (Z.to_nat 5)
          (drop first
             (find_docs (persons_collection (database_double []) (Some db))
                search_query (Some projection))).
Proof.
  intros db kwargs r.
  assert (r = Ok (from_Ok (0%nat, []) r)) as Hr by returns.
  split_and!; [reflexivity | reflexivity | reflexivity | exact Hr |
               by_evaluation |].
  destruct (from_Ok (0%nat, []) r) as [total results].
  exact (page_window soundex_double any_pattern
           (is_living_person_spec 2016 100) whitelist_spec
           (database_double []) (VStr "5") (Some db) VNone kwargs
           total results (VStr "5") 5 eq_refl eq_refl eq_refl Hr).
Defined.

(** X18 at [max_results=ten], with a search argument that is empty. *)
Lemma max_results_not_integer_witness :
  first_if_sequence (VList [VStr "ten"]) = Ok (VStr "ten") ∧
  parse_int "ten" = None ∧
  is_Ok (first_if_sequence VNone) = true ∧
  fsearch soundex_double any_pattern (is_living_person_spec 2016 100)
    whitelist_spec (database_double []) (VList [VStr "ten"]) None VNone
    [("first_name", [""])] =
  Raise (ValueError "invalid literal for int() with base 10: ten").
Proof.
  split_and!; [reflexivity..|].
  assert ("ten" ≠ "") as Hs by by_computation.
  exact (max_results_not_integer soundex_double any_pattern
           (is_living_person_spec 2016 100) whitelist_spec
           (database_double []) (VList [VStr "ten"]) None VNone
           [("first_name", [""])] "ten" eq_refl Hs eq_refl eq_refl).
Defined.

(** X20 at [birth_year=1907:x]. *)
Lemma year_and_fudge_not_integers_witness :
  let sd := [("birth_year", "1907:x")] in
  NoDup (keys sd) ∧ ("birth_year", "1907:x") ∈ sd ∧
  is_year "birth_year" = true ∧ Str.contains ":" "1907:x" = true ∧
  parse_int (default "" (Str.split ":" "1907:x" !! 1%nat)) = None ∧
  resolve_year "1907:x" =
    abort 400 "Year and fudge factor must be integers" ∧
  (∀ q, build_query soundex_double any_pattern sd ≠ Ok q) ∧
  build_query soundex_double any_pattern sd =
    abort 400 "Year and fudge factor must be integers".
Proof.
  intros sd.
  assert (NoDup (keys sd)) as Hnd by by_computation.
  assert (("birth_year", "1907:x") ∈ sd) as Hin by left.
  destruct (year_and_fudge_not_integers soundex_double any_pattern
              sd "birth_year" "1907:x" Hnd Hin eq_refl eq_refl
              (or_intror eq_refl))
    as (H1 & H2 & H3).
  split_and!; [exact Hnd | exact Hin | reflexivity.. | exact H1 | exact H2 |].
  apply H3.
  - exists []. reflexivity.
  - intros k' v' Hkv' _ Hc. apply list_elem_of_singleton in Hkv'.
    injection Hkv' as -> ->. discriminate Hc.
Defined.

(** X21 at [tree_number=abc] beside a first name. *)
Lemma tree_number_not_integer_witness :
  let sd := [("first_name", "yeh"); ("tree_number", "abc")] in
  dict_get sd "tree_number" = Some "abc" ∧ parse_int "abc" = None ∧
  (∀ q, build_query soundex_double any_pattern sd ≠ Ok q) ∧
  build_query soundex_double any_pattern sd =
    abort 400 "Tree number must be an integer".
Proof.
  intros sd.
  destruct (tree_number_not_integer soundex_double any_pattern
              sd "abc" eq_refl eq_refl) as [H1 H2].
  split_and!; [reflexivity | reflexivity | exact H1 |].
  apply H2.
  - exists (from_Ok [] (resolve_names soundex_double any_pattern
                          (names_and_places (classify_all sd)))).
    returns.
  - exists []. reflexivity.
Defined.

(** X22 at a first name and a birth year, in the two orders. *)
Lemma order_independent_witness :
  let sd := [("first_name", "yeh"); ("birth_year", "1907")] in
  let sd' := [("birth_year", "1907"); ("first_name", "yeh")] in
  let q := from_Ok ∅ (build_query soundex_double any_pattern sd) in
  sd ≡ₚ sd' ∧ NoDup (keys sd) ∧
  build_query soundex_double any_pattern sd = Ok q ∧
  build_query soundex_double any_pattern sd' = Ok q.
Proof.
  intros sd sd' q.
  assert (sd ≡ₚ sd') as Hp by apply perm_swap.
  assert (NoDup (keys sd)) as Hnd by by_computation.
  assert (build_query soundex_double any_pattern sd = Ok q) as Hq by returns.
  split_and!; [exact Hp | exact Hnd | exact Hq |].
  exact (order_independent soundex_double any_pattern sd sd' q Hp Hnd Hq).
Defined.
